(** * HabitsGPT: entitlement resolution, purchases and the credential form

    A shallow embedding of
      - the in-app-purchase service (class [IAPService]),
      - the premium context ([PremiumProvider.fetchPremiumStatus]),
      - the sign-in / sign-up form ([Auth.handleSubmit]).

    Asynchronous functions are written in a small monad that threads the
    component state and a trace of the calls made to the outside world
    (purchase SDK, database, auth backend, UI), and that either returns a
    value or throws.  What the outside world answers is read from an
    environment record, one field per external call. *)

From Stdlib Require Import ZArith Ascii String.
From stdpp Require Import base option list strings gmap.

Local Open Scope Z_scope.

(** ** JavaScript values used by the code *)

(** What [error?.message] holds: nothing (the field is absent or falsy), a
    string, or a truthy value that is not a string (a number, a boolean, an
    object), kept by its rendering [String(value)], which is never empty. *)
Inductive JsMessage :=
| NoMessage
| Text (s : string)
| NotText (c : ascii) (shown : string).

(** What the handlers read from a caught value: [error?.message],
    [error?.code], [error?.errorCode].  A thrown [null] or [undefined] reads
    as all three absent. *)
Record JsError := mkJsError {
  message_value : JsMessage;
  code : option string;
  errorCode : option string
}.

(** [error?.message] where it is only tested for truth, passed on or shown. *)
Definition message (e : JsError) : option string :=
  match message_value e with
  | NoMessage => None
  | Text s => Some s
  | NotText c shown => Some (String c shown)
  end.

(** [new Error(msg)] *)
Definition Error (msg : string) : JsError :=
  {| message_value := Text msg; code := None; errorCode := None |}.

Definition nonempty (s : string) : bool :=
  match s with EmptyString => false | String _ _ => true end.

(** Truthiness of a possibly absent string. *)
Definition truthy (v : option string) : bool :=
  match v with Some s => nonempty s | None => false end.

(** [a || b] on possibly absent strings. *)
Definition js_or (a b : option string) : option string :=
  if truthy a then a else b.

(** [a || 'literal'] *)
Definition js_or_lit (a : option string) (lit : string) : string :=
  match a with
  | Some s => if nonempty s then s else lit
  | None => lit
  end.

(** [a === b] where [b] is a string. *)
Definition strict_eq (a : option string) (b : string) : bool :=
  match a with Some s => bool_decide (s = b) | None => false end.

(** [String.prototype.toLowerCase] on the ASCII letters; other bytes of the
    UTF-8 encoding are left as they are. *)
Definition lower_ascii (c : ascii) : ascii :=
  let n := N_of_ascii c in
  if ((65 <=? n) && (n <=? 90))%N then ascii_of_N (n + 32) else c.

Fixpoint toLowerCase (s : string) : string :=
  match s with
  | EmptyString => EmptyString
  | String c r => String (lower_ascii c) (toLowerCase r)
  end.

Fixpoint startsWith (needle s : string) : bool :=
  match needle, s with
  | EmptyString, _ => true
  | String a n', String b s' => bool_decide (a = b) && startsWith n' s'
  | String _ _, EmptyString => false
  end.

(** [s.includes(needle)] *)
Fixpoint includes (needle s : string) : bool :=
  startsWith needle s ||
  match s with
  | EmptyString => false
  | String _ s' => includes needle s'
  end.

(** ** The monad of asynchronous component code *)

Inductive result (A : Type) : Type :=
| Ok (a : A)
| Throw (e : JsError).
Arguments Ok {A} a.
Arguments Throw {A} e.

Definition is_ok {A} (r : result A) : bool :=
  match r with Ok _ => true | Throw _ => false end.

Definition result_map {A B} (f : A -> B) (r : result A) : result B :=
  match r with Ok a => Ok (f a) | Throw e => Throw e end.

(** [M Ev St A]: from a state and the trace so far to an outcome, the new
    state and the extended trace. *)
Definition M (Ev St A : Type) : Type :=
  St -> list Ev -> result A * St * list Ev.

Section Monad.
Context {Ev St : Type}.

Definition ret {A} (a : A) : M Ev St A := fun s t => (Ok a, s, t).

Definition bind {A B} (m : M Ev St A) (k : A -> M Ev St B) : M Ev St B :=
  fun s t =>
    match m s t with
    | (Ok a, s', t') => k a s' t'
    | (Throw e, s', t') => (Throw e, s', t')
    end.

Definition throw {A} (e : JsError) : M Ev St A := fun s t => (Throw e, s, t).

Definition get : M Ev St St := fun s t => (Ok s, s, t).

Definition modify (f : St -> St) : M Ev St unit := fun s t => (Ok tt, f s, t).

(** An effect with no answer of interest. *)
Definition emit (ev : Ev) : M Ev St unit := fun s t => (Ok tt, s, t ++ [ev]).

(** An awaited external call: the call is recorded, then it resolves or
    rejects as the environment says. *)
Definition call {A} (ev : Ev) (answer : result A) : M Ev St A :=
  fun s t => (answer, s, t ++ [ev]).

(** A synchronous expression that may throw. *)
Definition eval {A} (r : result A) : M Ev St A := fun s t => (r, s, t).

(** [try { m } catch (e) { h e }] *)
Definition try_catch {A} (m : M Ev St A) (h : JsError -> M Ev St A)
  : M Ev St A :=
  fun s t =>
    match m s t with
    | (Ok a, s', t') => (Ok a, s', t')
    | (Throw e, s', t') => h e s' t'
    end.

(** [try { m } finally { f }] *)
Definition try_finally {A} (m : M Ev St A) (f : M Ev St unit) : M Ev St A :=
  fun s t =>
    match m s t with
    | (r, s', t') =>
        match f s' t' with
        | (Ok _, s'', t'') => (r, s'', t'')
        | (Throw e, s'', t'') => (Throw e, s'', t'')
        end
    end.
End Monad.

(** stdpp's notations [x ← m; k] and [m;; k] are used for sequencing. *)
#[global] Instance M_ret {Ev St} : MRet (M Ev St) := fun A => ret.
#[global] Instance M_bind {Ev St} : MBind (M Ev St) := fun A B k m => bind m k.

(** Projections of a run. *)
Definition outcome {A St Ev} (r : result A * St * list Ev) : result A := r.1.1.
Definition final {A St Ev} (r : result A * St * list Ev) : St := r.1.2.
Definition calls {A St Ev} (r : result A * St * list Ev) : list Ev := r.2.

(** Unfolds the monad down to its state-and-trace functions. *)
Ltac munfold :=
  unfold mbind, M_bind, mret, M_ret, bind, ret, throw, get, modify, emit,
    call, eval, try_catch, try_finally, outcome, final, calls in *.

(** ** The purchase service (class [IAPService]) *)

Module IAP.

Inductive Platform := apple | google | web.

(** [getCurrentPlatform()], from the platform string the runtime reports. *)
Definition getCurrentPlatform (platform : string) : Platform :=
  if bool_decide (platform = "ios") then apple
  else if bool_decide (platform = "android") then google
  else web.

(** The fields of a catalog package that the service reads:
    [p.product.identifier], [p.product.productIdentifier], [p.identifier]. *)
Record Product := {
  prod_identifier : option string;
  prod_productIdentifier : option string
}.

Record Package := {
  product : option Product;
  identifier : option string
}.

(** [offerings?.current?.availablePackages] *)
Record Offering := { availablePackages : option (list Package) }.
Record Offerings := { current : option Offering }.

(** The paths of a purchase result that are tried for a transaction id. *)
Record PurchaseSdkResult := {
  storeTransaction_transactionIdentifier : option string;
  storeTransaction_orderId : option string;
  transaction_transactionIdentifier : option string;
  transactionIdentifier : option string;
  customerInfo_originalPurchaseDate : option string
}.

Record Entitlement := {
  productIdentifier : option string;
  expirationDate : option string;
  expiresDate : option string
}.

(** [customerInfo?.entitlements?.active], as [Object.entries] lists it: in
    insertion order, each key once.  An absent mapping is the empty list. *)
Record CustomerInfo := { active : list (string * Entitlement) }.

(** The purchase SDK and the build-time keys, as seen by one operation: one
    answer per entry point (the module import, awaited twice by an operation,
    answers the same both times). *)
Record Env := {
  VITE_REVENUECAT_PUBLIC_GOOGLE_KEY : option string;
  VITE_REVENUECAT_PUBLIC_APPLE_KEY : option string;
  sdk_import : result unit;
  sdk_setLogLevel : result unit;
  sdk_configure : result unit;
  sdk_getOfferings : result (option Offerings);
  sdk_purchasePackage : Package -> result PurchaseSdkResult;
  sdk_restorePurchases : result CustomerInfo;
  sdk_getCustomerInfo : result CustomerInfo
}.

Inductive Event :=
| Import
| SetLogLevel
| Configure (apiKey : string) (appUserID : option string)
| GetOfferings
| PurchasePackage (packageToPurchase : Package)
| RestorePurchases
| GetCustomerInfo
| ConsoleError (label : string) (e : JsError).

Record IAPService := {
  isNative : bool;
  currentPlatform : Platform;
  configured : bool;
  appUserId : option string
}.

(** The constructor, from [Capacitor.isNativePlatform()] and
    [Capacitor.getPlatform()]. *)
Definition new (nativePlatform : bool) (platform : string) : IAPService :=
  {| isNative := nativePlatform;
     currentPlatform := getCurrentPlatform platform;
     configured := false;
     appUserId := None |}.

Definition set_configured (b : bool) (s : IAPService) : IAPService :=
  {| isNative := isNative s; currentPlatform := currentPlatform s;
     configured := b; appUserId := appUserId s |}.

Definition isAvailable (s : IAPService) : bool := isNative s.

Definition getPlatform (s : IAPService) : Platform := currentPlatform s.

Definition setAppUserId (id : option string) (s : IAPService) : IAPService :=
  {| isNative := isNative s; currentPlatform := currentPlatform s;
     configured := false;
     appUserId := if truthy id then id else None |}.

Definition getApiKey (env : Env) (s : IAPService) : option string :=
  match currentPlatform s with
  | google => VITE_REVENUECAT_PUBLIC_GOOGLE_KEY env
  | apple => VITE_REVENUECAT_PUBLIC_APPLE_KEY env
  | web => None
  end.

Definition missing_key_message (p : Platform) : string :=
  "[IAP] Missing RevenueCat API key. Set VITE_REVENUECAT_PUBLIC_"
  +:+ (match p with google => "GOOGLE" | _ => "APPLE" end)
  +:+ "_KEY in .env".

Definition sdk (env : Env) : M Event IAPService unit :=
  call Import (sdk_import env).

Definition ensureConfigured (env : Env) : M Event IAPService unit :=
  s ← get;
  if negb (isNative s) then ret tt
  else if configured s then ret tt
  else
    match getApiKey env s with
    | Some apiKey =>
        if nonempty apiKey then
          sdk env;;
          try_catch (call SetLogLevel (sdk_setLogLevel env))
                    (fun _ => ret tt);;
          s1 ← get;
          call (Configure apiKey (appUserId s1)) (sdk_configure env);;
          modify (set_configured true)
        else throw (Error (missing_key_message (currentPlatform s)))
    | None => throw (Error (missing_key_message (currentPlatform s)))
    end.

(** [p?.product?.identifier || p?.product?.productIdentifier || p?.identifier] *)
Definition package_pid (p : Package) : option string :=
  js_or (product p ≫= prod_identifier)
    (js_or (product p ≫= prod_productIdentifier) (identifier p)).

(** [offerings?.current?.availablePackages || []] *)
Definition packages_of (offerings : option Offerings) : list Package :=
  match offerings with
  | Some {| current := Some {| availablePackages := Some pkgs |} |} => pkgs
  | _ => []
  end.

Section GetProducts.
(** The per-package part of [getProducts] (title, price string, currency
    and the numeric amount, an IEEE double) is kept as a parameter: a
    function from the package found and the requested id. *)
Variable IAPProduct : Type.
Variable describe : Package -> string -> IAPProduct.

Definition byProductId (pkgs : list Package) : gmap string Package :=
  foldl (fun m p =>
           match package_pid p with
           | Some pid => if nonempty pid then <[pid := p]> m else m
           | None => m
           end) ∅ pkgs.

Definition getProducts (env : Env) (productIds : list string)
  : M Event IAPService (list IAPProduct) :=
  s ← get;
  if negb (isNative s) then ret []
  else
    ensureConfigured env;;
    sdk env;;
    offerings ← call GetOfferings (sdk_getOfferings env);
    let pkgs := packages_of offerings in
    match pkgs with
    | [] => ret []
    | _ =>
        let m := byProductId pkgs in
        ret (omap (fun requestedId =>
                     (fun pkg => describe pkg requestedId)
                       <$> m !! requestedId) productIds)
    end.
End GetProducts.

Inductive Raw := RawResult (r : PurchaseSdkResult) | RawError (e : JsError).

Record PurchaseResult := {
  success : bool;
  productId : option string;
  transactionId : option string;
  platform : Platform;
  raw : option Raw;
  error : option string
}.

Definition failure (p : Platform) (msg : string) (r : option Raw)
  : PurchaseResult :=
  {| success := false; productId := None; transactionId := None;
     platform := p; raw := r; error := Some msg |}.

Definition not_found_message (productId : string) : string :=
  "Product not found in RevenueCat Offering: " +:+ productId
  +:+ ". Check RevenueCat Offering + product IDs.".

Definition transactionId_of (r : PurchaseSdkResult) : option string :=
  let t :=
    js_or (storeTransaction_transactionIdentifier r)
      (js_or (storeTransaction_orderId r)
         (js_or (transaction_transactionIdentifier r)
            (js_or (transactionIdentifier r)
               (js_or (customerInfo_originalPurchaseDate r) (Some ""))))) in
  if truthy t then t else None.

(** The [try] block of [purchase]. *)
Definition purchase_attempt (env : Env) (pid : string)
  : M Event IAPService PurchaseResult :=
  offerings ← call GetOfferings (sdk_getOfferings env);
  let pkgs := packages_of offerings in
  match find (fun p => strict_eq (package_pid p) pid) pkgs with
  | None =>
      s ← get;
      ret (failure (currentPlatform s) (not_found_message pid) None)
  | Some pkg =>
      r ← call (PurchasePackage pkg) (sdk_purchasePackage env pkg);
      s ← get;
      ret {| success := true; productId := Some pid;
             transactionId := transactionId_of r;
             platform := currentPlatform s;
             raw := Some (RawResult r); error := None |}
  end.

(** [error?.code || error?.errorCode] *)
Definition error_code (e : JsError) : option string :=
  js_or (code e) (errorCode e).

(** The [catch] block of [purchase], on platform [p]:
    [code === 'USER_CANCELLED' || msg.toLowerCase().includes('cancel')] tests
    the code first; [msg.toLowerCase] is a function only when [msg] is a
    string, and calling it otherwise throws a [TypeError] out of the block. *)
Definition purchase_failure (p : Platform) (e : JsError)
  : result PurchaseResult :=
  let msg := js_or_lit (message e) "Purchase failed" in
  if strict_eq (error_code e) "USER_CANCELLED"
  then Ok (failure p "Purchase cancelled" None)
  else
    match message_value e with
    | NotText _ _ => Throw (Error "msg.toLowerCase is not a function")
    | _ =>
        if includes "cancel" (toLowerCase msg)
        then Ok (failure p "Purchase cancelled" None)
        else Ok (failure p msg (Some (RawError e)))
    end.

Definition purchase_failed (e : JsError) : M Event IAPService PurchaseResult :=
  s ← get;
  eval (purchase_failure (currentPlatform s) e).

Definition purchase (env : Env) (pid : string)
  : M Event IAPService PurchaseResult :=
  s ← get;
  if negb (isNative s)
  then ret (failure web "Purchases are only available on mobile devices." None)
  else
    ensureConfigured env;;
    sdk env;;
    try_catch (purchase_attempt env pid) purchase_failed.

Record RestoreResult := {
  restored : list string;
  restore_error : option string
}.

(** [if (ent?.productIdentifier) restoredProducts.push(ent.productIdentifier)] *)
Definition restored_product (entry : string * Entitlement) : option string :=
  if truthy (productIdentifier entry.2) then productIdentifier entry.2
  else None.

Definition restorePurchases (env : Env) : M Event IAPService RestoreResult :=
  s ← get;
  if negb (isNative s)
  then ret {| restored := [];
              restore_error :=
                Some "Restore is only available on mobile devices" |}
  else
    try_catch
      (ensureConfigured env;;
       sdk env;;
       customerInfo ← call RestorePurchases (sdk_restorePurchases env);
       ret {| restored := omap restored_product (active customerInfo);
              restore_error := None |})
      (fun e =>
         ret {| restored := [];
                restore_error :=
                  Some (js_or_lit (message e) "Failed to restore purchases") |}).

Record PremiumStatus := {
  isPremium : bool;
  expiresAt : option string
}.

(** [customerInfo?.entitlements?.active?.premium] *)
Definition premium_entitlement (ci : CustomerInfo) : option Entitlement :=
  snd <$> find (fun entry => bool_decide (entry.1 = "premium")) (active ci).

Definition status_of (ent : option Entitlement) : PremiumStatus :=
  let expires :=
    js_or (ent ≫= expirationDate) (ent ≫= expiresDate) in
  {| isPremium := bool_decide (is_Some ent);
     expiresAt := if truthy expires then expires else None |}.

Definition checkPremiumStatus (env : Env) : M Event IAPService PremiumStatus :=
  s ← get;
  if negb (isNative s) then ret {| isPremium := false; expiresAt := None |}
  else
    try_catch
      (ensureConfigured env;;
       sdk env;;
       customerInfo ← call GetCustomerInfo (sdk_getCustomerInfo env);
       ret (status_of (premium_entitlement customerInfo)))
      (fun e =>
         emit (ConsoleError "[IAP] Failed to check premium status:" e);;
         ret {| isPremium := false; expiresAt := None |}).

End IAP.

(** ** The premium context ([PremiumProvider]) *)

Module Premium.

Record User := { id : string; user_email : option string }.

(** A row of [profiles], as selected: [is_premium, premium_expires_at]. *)
Record ProfileRow := {
  is_premium : bool;
  premium_expires_at : option string
}.

(** What [maybeSingle()] resolves to. *)
Record SelectResponse := {
  data : option ProfileRow;
  error : option JsError
}.

(** The purchase SDK, the database and the clock, as seen by one call. *)
Record Env := {
  iap_env : IAP.Env;
  db_update : result (option JsError);
  db_select : result SelectResponse;
  now : Z
}.

Inductive Event :=
| Iap (e : IAP.Event)
| DbUpdate (id : string) (is_premium : bool)
           (premium_expires_at : option string)
| DbSelect (id : string)
| ConsoleError (label : string) (e : JsError).

(** The provider's two state cells and the service singleton it calls. *)
Record State := {
  iapService : IAP.IAPService;
  isPremium : bool;
  isLoading : bool
}.

Definition set_iapService (svc : IAP.IAPService) (s : State) : State :=
  {| iapService := svc; isPremium := isPremium s; isLoading := isLoading s |}.

Definition setIsPremium (b : bool) : M Event State unit :=
  modify (fun s => {| iapService := iapService s; isPremium := b;
                      isLoading := isLoading s |}).

Definition setIsLoading (b : bool) : M Event State unit :=
  modify (fun s => {| iapService := iapService s;
                      isPremium := isPremium s; isLoading := b |}).

(** A call into the service singleton. *)
Definition lift {A} (m : M IAP.Event IAP.IAPService A) : M Event State A :=
  fun s t =>
    match m (iapService s) [] with
    | (r, svc, evs) => (r, set_iapService svc s, t ++ (Iap <$> evs))
    end.

Section Resolver.
(** The host's [Date]: the time value of [new Date(s)] in milliseconds,
    [None] for an invalid date, and [toISOString] of a time value. *)
Variable Date_parse : string -> option Z.
Variable toISOString : Z -> string.

(** [new Date(s).toISOString()], which throws on an invalid date. *)
Definition iso_of (s : string) : result string :=
  match Date_parse s with
  | Some t => Ok (toISOString t)
  | None => Throw (Error "Invalid time value")
  end.

(** [new Date(s) > new Date()] *)
Definition in_future (now : Z) (s : string) : bool :=
  match Date_parse s with
  | Some t => bool_decide (now < t)
  | None => false
  end.

(** [data.is_premium &&
     (!data.premium_expires_at || new Date(data.premium_expires_at) > new Date())] *)
Definition isActive (now : Z) (row : ProfileRow) : bool :=
  is_premium row &&
  (negb (truthy (premium_expires_at row))
   || match premium_expires_at row with
      | Some e => in_future now e
      | None => false
      end).

(** [expiresAt ? new Date(expiresAt).toISOString() : null] *)
Definition expiry_column (expiresAt : option string)
  : result (option string) :=
  match expiresAt with
  | Some e => if nonempty e then result_map Some (iso_of e) else Ok None
  | None => Ok None
  end.

(** The best-effort sync of the native status to the database. *)
Definition sync (env : Env) (uid : string) (st : IAP.PremiumStatus)
  : M Event State unit :=
  try_catch
    (expires ← eval (expiry_column (IAP.expiresAt st));
     call (DbUpdate uid (IAP.isPremium st) expires) (db_update env);;
     ret tt)
    (fun _ => ret tt).

Definition fetchPremiumStatus (env : Env) (user : option User)
  : M Event State unit :=
  match user with
  | None => setIsPremium false;; setIsLoading false
  | Some u =>
      try_finally
        (try_catch
           (s ← get;
            if IAP.isAvailable (iapService s) then
              lift (modify (IAP.setAppUserId (Some (id u))));;
              st ← lift (IAP.checkPremiumStatus (iap_env env));
              setIsPremium (IAP.isPremium st);;
              sync env (id u) st
            else
              r ← call (DbSelect (id u)) (db_select env);
              match error r with
              | Some e => throw e
              | None =>
                  match data r with
                  | Some row => setIsPremium (isActive (now env) row)
                  | None => ret tt
                  end
              end)
           (fun e => emit (ConsoleError "Error fetching premium status:" e)))
        (setIsLoading false)
  end.

(** [activatePremium] and [refreshPremiumStatus] *)
Definition activatePremium (env : Env) (user : option User)
  : M Event State bool :=
  fetchPremiumStatus env user;; ret true.

Definition refreshPremiumStatus (env : Env) (user : option User)
  : M Event State unit :=
  fetchPremiumStatus env user.
End Resolver.

End Premium.

(** ** The credential form ([Auth]) *)

Module Auth.

Inductive Mode := signin | signup.

Record State := {
  mode : Mode;
  email : string;
  password : string;
  isSubmitting : bool
}.

(** The auth backend, as seen by one submission. *)
Record Env := {
  auth_signUp : result unit;
  auth_signIn : result unit
}.

Inductive Event :=
| PreventDefault
| Toast (title description : string)
| SignUp (email password : string)
| SignIn (email password : string)
| Navigate (path : string)
| ReloadAfter (ms : Z).

Definition setIsSubmitting (b : bool) : M Event State unit :=
  modify (fun s => {| mode := mode s; email := email s;
                      password := password s; isSubmitting := b |}).

Definition setMode (m : Mode) : M Event State unit :=
  modify (fun s => {| mode := m; email := email s;
                      password := password s;
                      isSubmitting := isSubmitting s |}).

Definition fallback_message (m : Mode) : string :=
  match m with
  | signup =>
      "Could not create your account. Try a different email or a stronger password."
  | signin => "Could not sign in. Check your email/password and try again."
  end.

Section Form.
(** The host's [String.prototype.trim]. *)
Variable trim : string -> string.

Definition handleSubmit (env : Env) : M Event State unit :=
  emit PreventDefault;;
  setIsSubmitting true;;
  s ← get;
  try_finally
    (try_catch
       (if negb (nonempty (email s)) || negb (nonempty (password s)) then
          emit (Toast "Missing info" "Please enter an email and password.")
        else
          match mode s with
          | signup =>
              call (SignUp (trim (email s)) (password s)) (auth_signUp env);;
              emit (Toast "Check your email"
                      "We sent a confirmation email. After confirming, come back and sign in.");;
              setMode signin
          | signin =>
              call (SignIn (trim (email s)) (password s)) (auth_signIn env);;
              emit (Navigate "/");;
              emit (ReloadAfter 50)
          end)
       (fun err =>
          emit (Toast "Authentication failed"
                  (js_or_lit (message err) (fallback_message (mode s))))))
    (setIsSubmitting false).
End Form.

(** The button under the form: [setMode(mode === 'signin' ? 'signup' : 'signin')] *)
Definition toggleMode (m : Mode) : Mode :=
  match m with signin => signup | signup => signin end.

(** [localStorage]: what it holds, and whether reading from it or writing
    to it throws (storage disabled by the browser, quota exceeded). *)
Record Storage := {
  items : gmap string string;
  reads_throw : bool;
  writes_throw : bool
}.

Definition getItem (ls : Storage) (key : string) : result (option string) :=
  if reads_throw ls then Throw (Error "The operation is insecure.")
  else Ok (items ls !! key).

Definition setItem (ls : Storage) (key value : string) : result Storage :=
  if writes_throw ls then Throw (Error "The quota has been exceeded.")
  else Ok {| items := <[key := value]> (items ls);
             reads_throw := reads_throw ls;
             writes_throw := writes_throw ls |}.

(** The initial state of the checkbox:
    [try { return localStorage.getItem('rememberMe') !== 'false'; }
     catch { return true; }] *)
Definition rememberMe_initial (ls : Storage) : bool :=
  match getItem ls "rememberMe" with
  | Ok v => negb (bool_decide (v = Some "false"))
  | Throw _ => true
  end.

(** [setRememberMe(next);
     try { localStorage.setItem('rememberMe', next ? 'true' : 'false'); } catch {}]:
    the new state of the checkbox and of the storage. *)
Definition remember (next : bool) (ls : Storage) : bool * Storage :=
  (next,
   match setItem ls "rememberMe" (if next then "true" else "false") with
   | Ok ls' => ls'
   | Throw _ => ls
   end).

(** What the checkbox reports to [onCheckedChange]. *)
Inductive CheckedState := Checked | Unchecked | Indeterminate.

(** [const next = v === true; ...] *)
Definition onCheckedChange (v : CheckedState) (ls : Storage) : bool * Storage :=
  remember (match v with Checked => true | _ => false end) ls.

(** The click on the label text: [const next = !rememberMe; ...] *)
Definition onLabelClick (rememberMe : bool) (ls : Storage) : bool * Storage :=
  remember (negb rememberMe) ls.

End Auth.

(** ** Runs of the service: which step fails, and sequences of operations *)

Module IAPRuns.
Import IAP.

(** The error [ensureConfigured] raises from state [s], if any: a missing
    key, a failed import of the SDK, or a rejected [configure]. *)
Definition configure_error (env : Env) (s : IAPService) : option JsError :=
  if negb (isNative s) || configured s then None
  else if truthy (getApiKey env s) then
    match sdk_import env, sdk_configure env with
    | Throw e, _ => Some e
    | Ok _, Throw e => Some e
    | Ok _, Ok _ => None
    end
  else Some (Error (missing_key_message (currentPlatform s))).

(** The state [ensureConfigured] leaves when it does not throw. *)
Definition configured_state (s : IAPService) : IAPService :=
  if negb (isNative s) || configured s then s else set_configured true s.

(** The error raised inside the [try] block of [purchase], if any: by the
    catalog query or by the purchase of the package found. *)
Definition purchase_error (env : Env) (pid : string) : option JsError :=
  match sdk_getOfferings env with
  | Throw e => Some e
  | Ok offerings =>
      match find (fun p => strict_eq (package_pid p) pid)
              (packages_of offerings) with
      | None => None
      | Some pkg =>
          match sdk_purchasePackage env pkg with
          | Throw e => Some e
          | Ok _ => None
          end
      end
  end.

(** The error an operation meets before its SDK query: from
    [ensureConfigured], or from loading the SDK. *)
Definition setup_error (env : Env) (s : IAPService) : option JsError :=
  match configure_error env s with
  | Some e => Some e
  | None => match sdk_import env with Throw e => Some e | Ok _ => None end
  end.

(** The SDK error code is [USER_CANCELLED]: the [code] field holds it, or
    the [code] field is missing or empty and the [errorCode] field holds it. *)
Definition user_cancelled_code (e : JsError) : Prop :=
  code e = Some "USER_CANCELLED"
  \/ ((code e = None \/ code e = Some "")
      /\ errorCode e = Some "USER_CANCELLED").

(** The message is a string that contains "cancel", in any case. *)
Definition mentions_cancel (e : JsError) : Prop :=
  exists m, message_value e = Text m
            /\ includes "cancel" (toLowerCase m) = true.

(** The error raised inside the [try] block of [restorePurchases], if any. *)
Definition restore_failure (env : Env) (s : IAPService) : option JsError :=
  match configure_error env s with
  | Some e => Some e
  | None =>
      match sdk_import env, sdk_restorePurchases env with
      | Throw e, _ => Some e
      | Ok _, Throw e => Some e
      | Ok _, Ok _ => None
      end
  end.

(** The error raised inside the [try] block of [checkPremiumStatus]. *)
Definition check_failure (env : Env) (s : IAPService) : option JsError :=
  match configure_error env s with
  | Some e => Some e
  | None =>
      match sdk_import env, sdk_getCustomerInfo env with
      | Throw e, _ => Some e
      | Ok _, Throw e => Some e
      | Ok _, Ok _ => None
      end
  end.

(** The public operations, each with the environment it meets. *)
Inductive Op :=
| SetAppUserId (id : option string)
| GetProducts (env : Env) (productIds : list string)
| Purchase (env : Env) (pid : string)
| Restore (env : Env)
| CheckPremium (env : Env).

Definition is_sdk_op (op : Op) : bool :=
  match op with SetAppUserId _ => false | _ => true end.

Definition op_env (op : Op) : option Env :=
  match op with
  | SetAppUserId _ => None
  | GetProducts env _ | Purchase env _ | Restore env | CheckPremium env =>
      Some env
  end.

(** One operation; whether it returned or threw is the caller's matter and
    does not stop the operations that follow. *)
Definition step (op : Op) (s : IAPService) (t : list Event)
  : IAPService * list Event :=
  match op with
  | SetAppUserId id => (setAppUserId id s, t)
  | GetProducts env ids =>
      let r := getProducts unit (fun _ _ => tt) env ids s t in (final r, calls r)
  | Purchase env pid => let r := purchase env pid s t in (final r, calls r)
  | Restore env => let r := restorePurchases env s t in (final r, calls r)
  | CheckPremium env => let r := checkPremiumStatus env s t in (final r, calls r)
  end.

Fixpoint exec (ops : list Op) (s : IAPService) (t : list Event)
  : IAPService * list Event :=
  match ops with
  | [] => (s, t)
  | op :: rest => let '(s', t') := step op s t in exec rest s' t'
  end.

(** How many operations of a run turn [configured] from false to true,
    that is, how many times [Purchases.configure] resolved. *)
Fixpoint configurations (ops : list Op) (s : IAPService) : nat :=
  match ops with
  | [] => 0%nat
  | op :: rest =>
      let s' := (step op s []).1 in
      ((if negb (configured s) && configured s' then 1 else 0)
       + configurations rest s')%nat
  end.

Definition setAppUserId_calls (ops : list Op) : nat :=
  length (filter (fun op => is_sdk_op op = false) ops).

Definition is_configure (ev : Event) : bool :=
  match ev with Configure _ _ => true | _ => false end.

(** The [Purchases.configure] calls of a trace. *)
Definition configure_calls (t : list Event) : list Event :=
  filter (fun ev => is_configure ev = true) t.

(** The [configure] calls of one operation that resolved: the calls are
    read off the trace of the operation, their answer off its environment. *)
Definition resolved_configures (op : Op) (s : IAPService) : nat :=
  match op_env op with
  | Some env =>
      if is_ok (sdk_configure env)
      then length (configure_calls (step op s []).2)
      else 0%nat
  | None => 0%nat
  end.

(** The [configure] calls of a run that resolved. *)
Fixpoint resolved_configure_calls (ops : list Op) (s : IAPService) : nat :=
  match ops with
  | [] => 0%nat
  | op :: rest =>
      (resolved_configures op s
       + resolved_configure_calls rest (step op s []).1)%nat
  end.

(** The calls [ensureConfigured] makes from state [s]. *)
Definition setup_calls (env : Env) (s : IAPService) : list Event :=
  if negb (isNative s) || configured s then []
  else
    match getApiKey env s with
    | Some k =>
        if nonempty k then
          match sdk_import env with
          | Ok _ => [Import; SetLogLevel; Configure k (appUserId s)]
          | Throw _ => [Import]
          end
        else []
    | None => []
    end.

(** The [configure] call an operation is expected to make from state [s]:
    one, with the platform's key and the stored identity, when the service
    is on a device, not yet configured, has a key and can load the SDK. *)
Definition configure_attempt (env : Env) (s : IAPService) : list Event :=
  if isNative s && negb (configured s) then
    match getApiKey env s, sdk_import env with
    | Some k, Ok _ => if nonempty k then [Configure k (appUserId s)] else []
    | _, _ => []
    end
  else [].

(** The identity stored after a run: the one given by the last
    [setAppUserId], an empty one reading as none. *)
Definition last_identity (ops : list Op) (start : option string)
  : option string :=
  foldl (fun cur op =>
           match op with
           | SetAppUserId id => if truthy id then id else None
           | _ => cur
           end) start ops.

(** The environment [env] with another answer to [setLogLevel]. *)
Definition with_setLogLevel (r : result unit) (env : Env) : Env :=
  {| VITE_REVENUECAT_PUBLIC_GOOGLE_KEY := VITE_REVENUECAT_PUBLIC_GOOGLE_KEY env;
     VITE_REVENUECAT_PUBLIC_APPLE_KEY := VITE_REVENUECAT_PUBLIC_APPLE_KEY env;
     sdk_import := sdk_import env;
     sdk_setLogLevel := r;
     sdk_configure := sdk_configure env;
     sdk_getOfferings := sdk_getOfferings env;
     sdk_purchasePackage := sdk_purchasePackage env;
     sdk_restorePurchases := sdk_restorePurchases env;
     sdk_getCustomerInfo := sdk_getCustomerInfo env |}.

Definition is_purchase (ev : Event) : bool :=
  match ev with PurchasePackage _ => true | _ => false end.

(** The catalog test of [purchase]: the package's id is the requested one. *)
Definition sells (pid : string) (p : Package) : bool :=
  strict_eq (package_pid p) pid.

(** The error [getProducts] ends in on a device, if any: it has no [try]. *)
Definition catalog_failure (env : Env) (s : IAPService) : option JsError :=
  match configure_error env s with
  | Some e => Some e
  | None =>
      match sdk_import env, sdk_getOfferings env with
      | Throw e, _ => Some e
      | Ok _, Throw e => Some e
      | Ok _, Ok _ => None
      end
  end.

(** The five fields of a purchase result tried for the transaction id, in
    the order they are tried. *)
Definition transaction_fields (r : PurchaseSdkResult) : list (option string) :=
  [storeTransaction_transactionIdentifier r; storeTransaction_orderId r;
   transaction_transactionIdentifier r; transactionIdentifier r;
   customerInfo_originalPurchaseDate r].
End IAPRuns.

(** ** Runs of the resolver *)

Module PremiumRuns.
Import Premium.

(** The error the database read ends in, if any: a rejected request, or a
    response that carries an error. *)
Definition read_error (env : Env) : option JsError :=
  match db_select env with
  | Throw e => Some e
  | Ok resp => error resp
  end.

(** An active cache record, in the words of the specification: the stored
    flag is true, and no expiry is stored or the stored expiry is strictly
    in the future.  An empty string counts as no expiry, as it does for the
    code. *)
Definition cache_active (Date_parse : string -> option Z) (now : Z)
    (row : ProfileRow) : Prop :=
  is_premium row = true
  /\ (truthy (premium_expires_at row) = false
      \/ exists e ms, premium_expires_at row = Some e
                      /\ Date_parse e = Some ms /\ now < ms).

(** The service as [fetchPremiumStatus] leaves it for [checkPremiumStatus]. *)
Definition service_for (u : User) (s : State) : IAP.IAPService :=
  IAP.setAppUserId (Some (id u)) (iapService s).

Definition is_read (ev : Event) : bool :=
  match ev with DbSelect _ => true | _ => false end.

Definition is_write (ev : Event) : bool :=
  match ev with DbUpdate _ _ _ => true | _ => false end.

Definition is_sdk (ev : Event) : bool :=
  match ev with Iap (IAP.ConsoleError _ _) => false | Iap _ => true | _ => false end.

(** The row a cache update leaves behind when the database applies it. *)
Definition written_row (flag : bool) (column : option string) : ProfileRow :=
  {| is_premium := flag; premium_expires_at := column |}.
End PremiumRuns.

(** ** Runs of the form *)

Module AuthRuns.
Import Auth.

(** The calls to the auth backend. *)
Definition is_remote (ev : Event) : bool :=
  match ev with SignUp _ _ | SignIn _ _ => true | _ => false end.

Definition is_toast (ev : Event) : bool :=
  match ev with Toast _ _ => true | _ => false end.

(** The call a submission with both fields filled in makes. *)
Definition remote_call (trim : string -> string) (s : State) : Event :=
  match mode s with
  | signup => SignUp (trim (email s)) (password s)
  | signin => SignIn (trim (email s)) (password s)
  end.

Definition is_signin (m : Mode) : bool :=
  match m with signin => true | signup => false end.

(** Whether a submission gets as far as a resolved backend call. *)
Definition accepted (env : Env) (s : State) : bool :=
  nonempty (email s) && nonempty (password s)
  && match mode s with
     | signup => is_ok (auth_signUp env)
     | signin => is_ok (auth_signIn env)
     end.
End AuthRuns.

(** ** Concrete environments and states, used to run the model *)

Module Fixtures.
Import IAP.

Definition monthly : Package :=
  {| product := Some {| prod_identifier := Some "cozy_premium_monthly";
                        prod_productIdentifier := None |};
     identifier := Some "$rc_monthly" |}.

Definition catalog : option Offerings :=
  Some {| current := Some {| availablePackages := Some [monthly] |} |}.

Definition bought : PurchaseSdkResult :=
  {| storeTransaction_transactionIdentifier := None;
     storeTransaction_orderId := Some "GPA.1234";
     transaction_transactionIdentifier := None;
     transactionIdentifier := None;
     customerInfo_originalPurchaseDate := None |}.

Definition premium_until_2099 : Entitlement :=
  {| productIdentifier := Some "cozy_premium_annual";
     expirationDate := Some "2099-01-01";
     expiresDate := None |}.

Definition legacy_grant : Entitlement :=
  {| productIdentifier := None; expirationDate := None; expiresDate := None |}.

Definition customer : CustomerInfo :=
  {| active := [("premium", premium_until_2099); ("legacy", legacy_grant)] |}.

(** A device on which every SDK call resolves. *)
Definition healthy : Env :=
  {| VITE_REVENUECAT_PUBLIC_GOOGLE_KEY := Some "goog_key";
     VITE_REVENUECAT_PUBLIC_APPLE_KEY := Some "appl_key";
     sdk_import := Ok tt;
     sdk_setLogLevel := Ok tt;
     sdk_configure := Ok tt;
     sdk_getOfferings := Ok catalog;
     sdk_purchasePackage := fun _ => Ok bought;
     sdk_restorePurchases := Ok customer;
     sdk_getCustomerInfo := Ok customer |}.

(** The same, built without the store keys. *)
Definition keyless : Env :=
  {| VITE_REVENUECAT_PUBLIC_GOOGLE_KEY := None;
     VITE_REVENUECAT_PUBLIC_APPLE_KEY := None;
     sdk_import := Ok tt;
     sdk_setLogLevel := Ok tt;
     sdk_configure := Ok tt;
     sdk_getOfferings := Ok catalog;
     sdk_purchasePackage := fun _ => Ok bought;
     sdk_restorePurchases := Ok customer;
     sdk_getCustomerInfo := Ok customer |}.

(** The same as [healthy], except that the purchase is rejected with [e]. *)
Definition rejecting (e : JsError) : Env :=
  {| VITE_REVENUECAT_PUBLIC_GOOGLE_KEY := Some "goog_key";
     VITE_REVENUECAT_PUBLIC_APPLE_KEY := Some "appl_key";
     sdk_import := Ok tt;
     sdk_setLogLevel := Ok tt;
     sdk_configure := Ok tt;
     sdk_getOfferings := Ok catalog;
     sdk_purchasePackage := fun _ => Throw e;
     sdk_restorePurchases := Throw e;
     sdk_getCustomerInfo := Throw e |}.

Definition sheet_dismissed : JsError :=
  {| message_value := Text "The user CANCELLED the payment sheet";
     code := Some "1"; errorCode := None |}.

(** The store answers with its own code and no text at all. *)
Definition cancelled_by_code : JsError :=
  {| message_value := NoMessage; code := None;
     errorCode := Some "USER_CANCELLED" |}.

(** A network failure whose message is the number 404. *)
Definition numeric_message : JsError :=
  {| message_value := NotText "4" "04"; code := Some "NETWORK_ERROR";
     errorCode := None |}.

(** An error with nothing to read. *)
Definition blank_error : JsError :=
  {| message_value := NoMessage; code := None; errorCode := None |}.

(** The same as [healthy], except that [Purchases.configure] is rejected
    with [e]. *)
Definition unconfigurable (e : JsError) : Env :=
  {| VITE_REVENUECAT_PUBLIC_GOOGLE_KEY := Some "goog_key";
     VITE_REVENUECAT_PUBLIC_APPLE_KEY := Some "appl_key";
     sdk_import := Ok tt;
     sdk_setLogLevel := Ok tt;
     sdk_configure := Throw e;
     sdk_getOfferings := Ok catalog;
     sdk_purchasePackage := fun _ => Ok bought;
     sdk_restorePurchases := Ok customer;
     sdk_getCustomerInfo := Ok customer |}.

Definition on_android : IAPService := new true "android".
Definition in_browser : IAPService := new false "web".

(** An Android device already configured for user [u1]. *)
Definition configured_for_u1 : IAPService :=
  {| isNative := true; currentPlatform := google;
     configured := true; appUserId := Some "u1" |}.

(** The host's [Date] at the one string the scenarios use: midnight UTC of
    1 January 2099 is 4070908800000 ms after the epoch. *)
Definition Date_parse (s : string) : option Z :=
  if bool_decide (s = "2099-01-01") then Some 4070908800000
  else if bool_decide (s = "2001-01-01") then Some 978307200000
  else None.

Definition toISOString (t : Z) : string :=
  if bool_decide (t = 4070908800000) then "2099-01-01T00:00:00.000Z"
  else if bool_decide (t = 978307200000) then "2001-01-01T00:00:00.000Z"
  else "".

Definition u1 : Premium.User :=
  {| Premium.id := "u1"; Premium.user_email := Some "a@b.com" |}.

(** The clock reads 1 January 2024, 00:00 UTC. *)
Definition clock : Z := 1704067200000.

Definition device_world : Premium.Env :=
  {| Premium.iap_env := healthy;
     Premium.db_update := Throw (Error "Failed to fetch");
     Premium.db_select := Throw (Error "Failed to fetch");
     Premium.now := clock |}.

(** A device built without the store keys. *)
Definition keyless_device_world : Premium.Env :=
  {| Premium.iap_env := keyless;
     Premium.db_update := Ok None;
     Premium.db_select := Throw (Error "Failed to fetch");
     Premium.now := clock |}.

(** A browser session whose database read answers [r]. *)
Definition browser_world (r : result Premium.SelectResponse) : Premium.Env :=
  {| Premium.iap_env := healthy;
     Premium.db_update := Ok None;
     Premium.db_select := r;
     Premium.now := clock |}.

Definition row (flag : bool) (expires : option string)
  : result Premium.SelectResponse :=
  Ok {| Premium.data :=
          Some {| Premium.is_premium := flag;
                  Premium.premium_expires_at := expires |};
        Premium.error := None |}.

Definition no_row : result Premium.SelectResponse :=
  Ok {| Premium.data := None; Premium.error := None |}.

Definition provider (svc : IAPService) (premium : bool) : Premium.State :=
  {| Premium.iapService := svc;
     Premium.isPremium := premium;
     Premium.isLoading := true |}.

(** A stand-in for the host's [trim] on strings without outer blanks. *)
Definition trim (s : string) : string := s.

Definition form (m : Auth.Mode) (e p : string) : Auth.State :=
  {| Auth.mode := m; Auth.email := e; Auth.password := p;
     Auth.isSubmitting := false |}.

Definition backend_up : Auth.Env :=
  {| Auth.auth_signUp := Ok tt; Auth.auth_signIn := Ok tt |}.

(** The backend refuses: the address is taken, the credentials are wrong. *)
Definition backend_refuses : Auth.Env :=
  {| Auth.auth_signUp := Throw (Error "User already registered");
     Auth.auth_signIn := Throw (Error "Invalid login credentials") |}.

(** [Date] on the date strings of the scenarios and on their ISO renderings:
    parsing what [toISOString] printed gives the time value back. *)
Definition Date_parse_iso (s : string) : option Z :=
  if bool_decide (s = "2099-01-01") then Some 4070908800000
  else if bool_decide (s = "2099-01-01T00:00:00.000Z") then Some 4070908800000
  else if bool_decide (s = "2001-01-01") then Some 978307200000
  else if bool_decide (s = "2001-01-01T00:00:00.000Z") then Some 978307200000
  else None.

Definition expired_in_2001 : Entitlement :=
  {| productIdentifier := Some "cozy_premium_monthly";
     expirationDate := Some "2001-01-01";
     expiresDate := None |}.

Definition garbled_expiry : Entitlement :=
  {| productIdentifier := Some "cozy_premium_monthly";
     expirationDate := Some "soon";
     expiresDate := None |}.

(** A device whose SDK reports [ent] as the active premium entitlement. *)
Definition reporting (ent : Entitlement) : Env :=
  {| VITE_REVENUECAT_PUBLIC_GOOGLE_KEY := Some "goog_key";
     VITE_REVENUECAT_PUBLIC_APPLE_KEY := Some "appl_key";
     sdk_import := Ok tt;
     sdk_setLogLevel := Ok tt;
     sdk_configure := Ok tt;
     sdk_getOfferings := Ok catalog;
     sdk_purchasePackage := fun _ => Ok bought;
     sdk_restorePurchases := Ok {| active := [("premium", ent)] |};
     sdk_getCustomerInfo := Ok {| active := [("premium", ent)] |} |}.

Definition reporting_world (ent : Entitlement) : Premium.Env :=
  {| Premium.iap_env := reporting ent;
     Premium.db_update := Ok None;
     Premium.db_select := Throw (Error "Failed to fetch");
     Premium.now := clock |}.

(** An Android device configured without an identity. *)
Definition configured_anonymously : IAPService :=
  {| isNative := true; currentPlatform := google;
     configured := true; appUserId := None |}.

(** A second package sold under the same product id as [monthly]. *)
Definition monthly_promo : Package :=
  {| product := Some {| prod_identifier := None;
                        prod_productIdentifier := Some "cozy_premium_monthly" |};
     identifier := Some "$rc_promo" |}.

(** A healthy device whose catalog holds [pkgs]. *)
Definition selling (pkgs : list Package) : Env :=
  {| VITE_REVENUECAT_PUBLIC_GOOGLE_KEY := Some "goog_key";
     VITE_REVENUECAT_PUBLIC_APPLE_KEY := Some "appl_key";
     sdk_import := Ok tt;
     sdk_setLogLevel := Ok tt;
     sdk_configure := Ok tt;
     sdk_getOfferings :=
       Ok (Some {| current := Some {| availablePackages := Some pkgs |} |});
     sdk_purchasePackage := fun _ => Ok bought;
     sdk_restorePurchases := Ok customer;
     sdk_getCustomerInfo := Ok customer |}.

(** The host's [trim] on the strings of the scenarios: an email of three
    blanks trims to nothing, the other strings have no outer blanks. *)
Definition trim_blanks (s : string) : string :=
  if bool_decide (s = "   ") then "" else s.

Definition storage_with (v : string) : Auth.Storage :=
  {| Auth.items := {["rememberMe" := v]};
     Auth.reads_throw := false; Auth.writes_throw := false |}.

(** A storage that is full: it can be read but not written. *)
Definition storage_full (v : string) : Auth.Storage :=
  {| Auth.items := {["rememberMe" := v]};
     Auth.reads_throw := false; Auth.writes_throw := true |}.
End Fixtures.

(** ** Properties of the purchase service *)

Module IAPFacts.
Import IAP IAPRuns.

(** *** String helpers *)

Lemma startsWith_app n b : startsWith n (n +:+ b) = true.
Proof.
  induction n as [|c n IH]; simpl; [done|].
  rewrite IH, andb_true_r. by apply bool_decide_eq_true.
Qed.

Lemma includes_prefix n s : startsWith n s = true -> includes n s = true.
Proof. intros H. destruct s; simpl; by rewrite H. Qed.

Lemma includes_app a n b : includes n (a +:+ n +:+ b) = true.
Proof.
  induction a as [|c a IH].
  - change ("" +:+ n +:+ b) with (n +:+ b).
    apply includes_prefix. apply startsWith_app.
  - change (String c a +:+ n +:+ b) with (String c (a +:+ n +:+ b)).
    simpl. rewrite IH. by rewrite orb_true_r.
Qed.

(** *** [ensureConfigured] *)

Lemma ensureConfigured_idle env s t :
  negb (isNative s) || configured s = true ->
  ensureConfigured env s t = (Ok tt, s, t).
Proof.
  intros H. unfold ensureConfigured. munfold.
  destruct (isNative s), (configured s); simpl in *; try discriminate; reflexivity.
Qed.

Lemma ensureConfigured_cases env s t :
  match configure_error env s with
  | None => exists t', ensureConfigured env s t = (Ok tt, configured_state s, t')
  | Some e => exists t', ensureConfigured env s t = (Throw e, s, t')
  end.
Proof.
  unfold configure_error, configured_state.
  destruct (negb (isNative s) || configured s) eqn:Hidle.
  - exists t. by apply ensureConfigured_idle.
  - apply orb_false_iff in Hidle as [Hn Hc]. apply negb_false_iff in Hn.
    unfold ensureConfigured, sdk. munfold. rewrite Hn, Hc. simpl.
    destruct (getApiKey env s) as [k|]; simpl; [|by eexists].
    destruct (nonempty k); [|by eexists].
    destruct (sdk_import env) as [[]|e]; [|by eexists].
    destruct (sdk_setLogLevel env) as [[]|e'];
      (destruct (sdk_configure env) as [[]|e]; by eexists).
Qed.

Lemma currentPlatform_configured_state s :
  currentPlatform (configured_state s) = currentPlatform s.
Proof. unfold configured_state. by destruct (negb _ || _). Qed.

(** *** [purchase] *)

Lemma purchase_attempt_cases env pid s t :
  match purchase_error env pid with
  | Some e => exists t', purchase_attempt env pid s t = (Throw e, s, t')
  | None => exists r t', purchase_attempt env pid s t = (Ok r, s, t')
  end.
Proof.
  unfold purchase_error, purchase_attempt. munfold.
  destruct (sdk_getOfferings env) as [o|e]; [|by eexists].
  destruct (find _ (packages_of o)) as [pkg|]; [|by do 2 eexists].
  destruct (sdk_purchasePackage env pkg) as [r|e]; [by do 2 eexists|by eexists].
Qed.

(** From a state in which configuration succeeds and the SDK loads,
    [purchase] is its [try] block run from the configured state. *)
Lemma purchase_ready env pid s t :
  isNative s = true -> configure_error env s = None -> sdk_import env = Ok tt ->
  exists t',
    purchase env pid s t =
    try_catch (purchase_attempt env pid) purchase_failed (configured_state s) t'.
Proof.
  intros Hn Hc Hi. pose proof (ensureConfigured_cases env s t) as H.
  rewrite Hc in H. destruct H as [t1 H].
  unfold purchase, sdk. munfold. rewrite Hn. simpl. rewrite H, Hi.
  by eexists.
Qed.

(** What the [catch] block of [purchase] does: it returns or throws what
    [purchase_failure] says and touches neither the state nor the trace. *)
Lemma purchase_failed_run e s t :
  purchase_failed e s t = (purchase_failure (currentPlatform s) e, s, t).
Proof. reflexivity. Qed.

(** On a device, [purchase] rejects exactly when the configuration or the
    loading of the SDK fails (both are awaited before the [try] block), or
    when the [catch] block itself throws. *)
Lemma purchase_rejects_iff env pid s t :
  isNative s = true ->
  (exists e, outcome (purchase env pid s t) = Throw e) <->
  (is_Some (configure_error env s)
   \/ (exists e, sdk_import env = Throw e)
   \/ (exists e e', purchase_error env pid = Some e
                    /\ purchase_failure (currentPlatform s) e = Throw e')).
Proof.
  intros Hn. pose proof (ensureConfigured_cases env s t) as H.
  destruct (configure_error env s) as [e|] eqn:Hc.
  - destruct H as [t1 H]. split; [intros _; left; by eexists|intros _].
    exists e. unfold purchase. munfold. rewrite Hn. simpl. by rewrite H.
  - destruct H as [t1 H]. unfold purchase, sdk. munfold. rewrite Hn. simpl.
    rewrite H. destruct (sdk_import env) as [[]|e] eqn:Hi; simpl.
    + pose proof (purchase_attempt_cases env pid (configured_state s)
                    (t1 ++ [Import])) as Ha.
      destruct (purchase_error env pid) as [e|].
      * destruct Ha as [t2 Ha]. rewrite Ha, purchase_failed_run.
        rewrite currentPlatform_configured_state. simpl. split.
        -- intros [e' He']. right. right. by exists e, e'.
        -- intros [[x Hx]|[[x Hx]|(x & e' & [= <-] & He')]]; try discriminate.
           by exists e'.
      * destruct Ha as (r & t2 & Ha). rewrite Ha. simpl. split.
        -- by intros [e He].
        -- intros [[x Hx]|[[x Hx]|(x & e' & Hx & _)]]; discriminate.
    + split; [intros _; right; left; by eexists|intros _; by eexists].
Qed.

(** When the catalog holds no package for the requested id, the outcome is
    a failure whose message names the id. *)
Lemma purchase_unknown_product env pid s t offerings :
  isNative s = true -> configure_error env s = None -> sdk_import env = Ok tt ->
  sdk_getOfferings env = Ok offerings ->
  find (fun p => strict_eq (package_pid p) pid) (packages_of offerings) = None ->
  outcome (purchase env pid s t)
  = Ok (failure (currentPlatform s) (not_found_message pid) None)
  /\ includes pid (not_found_message pid) = true.
Proof.
  intros Hn Hc Hi Ho Hf. split; [|apply includes_app].
  destruct (purchase_ready env pid s t Hn Hc Hi) as [t1 ->].
  unfold purchase_attempt. munfold. rewrite Ho. simpl. rewrite Hf. simpl.
  by rewrite currentPlatform_configured_state.
Qed.

(** C4, at the failing input.  On an Android build without the store key,
    [purchase] rejects with the error of [ensureConfigured] instead of
    returning an outcome: the configuration is awaited before the [try]
    block begins. *)
Theorem purchase_rejects_without_key :
  purchase Fixtures.keyless "cozy_premium_monthly" Fixtures.on_android []
  = (Throw (Error "[IAP] Missing RevenueCat API key. Set VITE_REVENUECAT_PUBLIC_GOOGLE_KEY in .env"),
     Fixtures.on_android, []).
Proof. reflexivity. Qed.

(** The sibling operation on the same input: [restorePurchases] awaits the
    configuration inside its [try] block and returns the error as data. *)
Lemma restore_reports_missing_key :
  outcome (restorePurchases Fixtures.keyless Fixtures.on_android [])
  = Ok {| restored := [];
          restore_error := Some "[IAP] Missing RevenueCat API key. Set VITE_REVENUECAT_PUBLIC_GOOGLE_KEY in .env" |}.
Proof. reflexivity. Qed.

(** The test the [catch] block makes on the code, in terms of the two
    fields it reads. *)
Lemma user_cancelled_code_iff e :
  strict_eq (error_code e) "USER_CANCELLED" = true <-> user_cancelled_code e.
Proof.
  unfold user_cancelled_code, error_code, js_or, strict_eq, truthy.
  destruct (code e) as [[|a c]|]; simpl.
  - destruct (errorCode e) as [x|].
    + rewrite bool_decide_eq_true. split.
      * intros ->. right. split; [by right|done].
      * intros [[=]|[_ [= ->]]]. done.
    + split; [done|]. by intros [[=]|[_ [=]]].
  - rewrite bool_decide_eq_true. split.
    + intros Heq. left. by rewrite Heq.
    + intros [H|[[H|H] _]]; congruence.
  - destruct (errorCode e) as [x|].
    + rewrite bool_decide_eq_true. split.
      * intros ->. right. split; [by left|done].
      * intros [[=]|[_ [= ->]]]. done.
    + split; [done|]. by intros [[=]|[_ [=]]].
Qed.

(** Where the [catch] block of [purchase] does its work.  For an error
    raised by the catalog query or by the purchase call, after a successful
    configuration: a [USER_CANCELLED] code gives the outcome "Purchase
    cancelled" without a raw payload; otherwise a message that is a string
    (or is missing) gives "Purchase cancelled" when it contains "cancel" in
    any case, and else the failure with the message, or "Purchase failed",
    and the raw error; and a message that is not a string makes the block
    throw. *)
Lemma try_block_errors_normalised env pid s t e :
  isNative s = true -> configure_error env s = None -> sdk_import env = Ok tt ->
  purchase_error env pid = Some e ->
  (user_cancelled_code e ->
   outcome (purchase env pid s t)
   = Ok {| success := false; productId := None; transactionId := None;
           platform := currentPlatform s; raw := None;
           error := Some "Purchase cancelled" |})
  /\ (mentions_cancel e ->
      outcome (purchase env pid s t)
      = Ok {| success := false; productId := None; transactionId := None;
              platform := currentPlatform s; raw := None;
              error := Some "Purchase cancelled" |})
  /\ (~ user_cancelled_code e -> ~ mentions_cancel e ->
      match message_value e with
      | NotText _ _ =>
          outcome (purchase env pid s t)
          = Throw (Error "msg.toLowerCase is not a function")
      | Text (String c m) =>
          outcome (purchase env pid s t)
          = Ok {| success := false; productId := None; transactionId := None;
                  platform := currentPlatform s; raw := Some (RawError e);
                  error := Some (String c m) |}
      | _ =>
          outcome (purchase env pid s t)
          = Ok {| success := false; productId := None; transactionId := None;
                  platform := currentPlatform s; raw := Some (RawError e);
                  error := Some "Purchase failed" |}
      end).
Proof.
  intros Hn Hc Hi He.
  destruct (purchase_ready env pid s t Hn Hc Hi) as [t1 ->].
  pose proof (purchase_attempt_cases env pid (configured_state s) t1) as Ha.
  rewrite He in Ha. destruct Ha as [t2 Ha].
  munfold. rewrite Ha, purchase_failed_run. simpl.
  rewrite currentPlatform_configured_state.
  pose proof (user_cancelled_code_iff e) as Hcode.
  destruct Hcode as [Hcode1 Hcode2].
  unfold purchase_failure, mentions_cancel, message, js_or_lit.
  destruct (strict_eq (error_code e) "USER_CANCELLED") eqn:Hs.
  - split; [intros _; reflexivity|]. split; [intros _; reflexivity|].
    intros Hnc. destruct Hnc. by apply Hcode1.
  - split; [intros Hu; apply Hcode2 in Hu; discriminate|].
    destruct (message_value e) as [|m|c shown] eqn:Hm.
    + split; [by intros (m & [=] & _)|intros _ _; reflexivity].
    + destruct m as [|c m].
      * split; [by intros (m & [= <-] & H)|intros _ _; reflexivity].
      * cbn [nonempty].
        destruct (includes "cancel" (toLowerCase (String c m))) eqn:Hinc.
        -- split; [intros _; reflexivity|]. intros _ Hnm. destruct Hnm.
           by eexists.
        -- split; [|intros _ _; reflexivity].
           intros (m' & [= <-] & H). congruence.
    + split; [by intros (m & [=] & _)|intros _ _; reflexivity].
Qed.

(** C6, at the failing inputs.  A purchase rejected with a network error
    whose message is the number 404 makes the [catch] block throw, and a
    cancellation raised while the SDK is configured never reaches the
    [catch] block: in both cases [purchase] rejects instead of returning a
    failure outcome. *)
Theorem purchase_errors_escape_normalisation :
  purchase (Fixtures.rejecting Fixtures.numeric_message)
    "cozy_premium_monthly" Fixtures.on_android []
  = (Throw (Error "msg.toLowerCase is not a function"),
     Fixtures.configured_anonymously,
     [Import; SetLogLevel; Configure "goog_key" None; Import; GetOfferings;
      PurchasePackage Fixtures.monthly])
  /\ purchase
       (Fixtures.unconfigurable
          {| message_value := Text "Purchase was cancelled.";
             code := Some "USER_CANCELLED"; errorCode := None |})
       "cozy_premium_monthly" Fixtures.on_android []
     = (Throw {| message_value := Text "Purchase was cancelled.";
                 code := Some "USER_CANCELLED"; errorCode := None |},
        Fixtures.on_android,
        [Import; SetLogLevel; Configure "goog_key" None]).
Proof. split; reflexivity. Qed.

(** Inside the [try] block the same cancellation, and one known by its
    [errorCode] alone, are turned into the calm outcome. *)
Lemma cancellations_inside_try_are_normalised :
  outcome (purchase (Fixtures.rejecting Fixtures.sheet_dismissed)
             "cozy_premium_monthly" Fixtures.on_android [])
  = Ok (failure google "Purchase cancelled" None)
  /\ outcome (purchase (Fixtures.rejecting Fixtures.cancelled_by_code)
                "cozy_premium_monthly" Fixtures.on_android [])
     = Ok (failure google "Purchase cancelled" None).
Proof.
  split.
  - destruct (try_block_errors_normalised
                (Fixtures.rejecting Fixtures.sheet_dismissed)
                "cozy_premium_monthly" Fixtures.on_android []
                Fixtures.sheet_dismissed eq_refl eq_refl eq_refl eq_refl)
      as (_ & Hmessage & _).
    apply Hmessage. by eexists.
  - destruct (try_block_errors_normalised
                (Fixtures.rejecting Fixtures.cancelled_by_code)
                "cozy_premium_monthly" Fixtures.on_android []
                Fixtures.cancelled_by_code eq_refl eq_refl eq_refl eq_refl)
      as (Hcode & _).
    apply Hcode. right. split; [by left|reflexivity].
Defined.

(** *** Off the device *)



(** *** [restorePurchases] *)

Lemma restored_product_Some entry x :
  restored_product entry = Some x <->
  productIdentifier entry.2 = Some x /\ nonempty x = true.
Proof.
  unfold restored_product, truthy.
  destruct (productIdentifier entry.2) as [y|].
  - destruct (nonempty y) eqn:E.
    + split; [intros [= <-]; done|intros [[= <-] _]; done].
    + split; [discriminate|intros [[= <-] Hx]; congruence].
  - split; [discriminate|intros [[=] _]].
Qed.

(** C10.  On a device [restorePurchases] always returns.  When a step of
    its [try] block fails (configuration, loading the SDK, or the restore
    call) the result is the empty list with the error's message, or
    "Failed to restore purchases" when it has none.  Otherwise the result
    carries no error and lists, in order, the product identifier of every
    active entitlement that has a non-empty one, and nothing else. *)
Theorem restorePurchases_on_device env s t :
  isNative s = true ->
  match restore_failure env s with
  | Some e =>
      outcome (restorePurchases env s t)
      = Ok {| restored := [];
              restore_error :=
                Some (js_or_lit (message e) "Failed to restore purchases") |}
  | None =>
      exists info,
        sdk_restorePurchases env = Ok info
        /\ outcome (restorePurchases env s t)
           = Ok {| restored := omap restored_product (active info);
                   restore_error := None |}
        /\ forall x,
             x ∈ omap restored_product (active info) <->
             exists entry, entry ∈ active info
                           /\ productIdentifier entry.2 = Some x
                           /\ nonempty x = true
  end.
Proof.
  intros Hn. unfold restore_failure.
  pose proof (ensureConfigured_cases env s t) as H.
  unfold restorePurchases, sdk. munfold. rewrite Hn. simpl.
  destruct (configure_error env s) as [e|]; destruct H as [t1 ->]; [done|].
  destruct (sdk_import env) as [[]|e]; [|done].
  destruct (sdk_restorePurchases env) as [info|e]; [|done].
  exists info. repeat split; try done.
  - intros (entry & Hin & Hp)%list_elem_of_omap.
    exists entry. split; [done|]. by apply restored_product_Some.
  - intros (entry & Hin & Hp). apply list_elem_of_omap.
    exists entry. split; [done|]. by apply restored_product_Some.
Qed.

Lemma restorePurchases_on_device_witness :
  outcome (restorePurchases Fixtures.healthy Fixtures.on_android [])
  = Ok {| restored := ["cozy_premium_annual"]; restore_error := None |}
  /\ outcome (restorePurchases (Fixtures.rejecting Fixtures.sheet_dismissed)
                Fixtures.on_android [])
     = Ok {| restored := [];
             restore_error := Some "The user CANCELLED the payment sheet" |}.
Proof.
  split.
  - destruct (restorePurchases_on_device Fixtures.healthy Fixtures.on_android
                [] eq_refl) as (info & Hinfo & Hout & _).
    injection Hinfo as <-. exact Hout.
  - exact (restorePurchases_on_device
             (Fixtures.rejecting Fixtures.sheet_dismissed)
             Fixtures.on_android [] eq_refl).
Defined.

(** *** Configuration across a sequence of operations *)

Lemma configure_calls_snoc t ev :
  is_configure ev = false -> configure_calls (t ++ [ev]) = configure_calls t.
Proof.
  intros H. unfold configure_calls. rewrite filter_app, filter_cons.
  rewrite H. simpl. destruct (decide (false = true)); [done|].
  by rewrite filter_nil, app_nil_r.
Qed.

Ltac quiet_calls :=
  repeat (rewrite configure_calls_snoc by reflexivity); try reflexivity.

(** Once configured, an SDK operation leaves the service as it is and
    makes no [configure] call. *)
Lemma sdk_op_settled op s t :
  is_sdk_op op = true -> configured s = true ->
  (step op s t).1 = s /\ configure_calls (step op s t).2 = configure_calls t.
Proof.
  intros Hop Hc.
  assert (Hidle : forall env t0, ensureConfigured env s t0 = (Ok tt, s, t0)).
  { intros. apply ensureConfigured_idle. rewrite Hc. apply orb_true_r. }
  destruct op as [id|env ids|env pid|env|env]; [discriminate|..];
    unfold step.
  - unfold getProducts, sdk. munfold.
    destruct (isNative s); simpl; [|done]. rewrite Hidle.
    destruct (sdk_import env) as [[]|e]; simpl; [|split; quiet_calls].
    destruct (sdk_getOfferings env) as [o|e]; simpl; [|split; quiet_calls].
    destruct (packages_of o); simpl; split; quiet_calls.
  - unfold purchase, sdk, purchase_attempt, purchase_failed. munfold.
    destruct (isNative s); simpl; [|done]. rewrite Hidle.
    destruct (sdk_import env) as [[]|e]; simpl; [|split; quiet_calls].
    destruct (sdk_getOfferings env) as [o|e]; simpl.
    + destruct (find _ (packages_of o)) as [pkg|]; simpl;
        [|split; quiet_calls].
      destruct (sdk_purchasePackage env pkg) as [r|e]; simpl;
        [split; quiet_calls|].
      split; quiet_calls.
    + split; quiet_calls.
  - unfold restorePurchases, sdk. munfold.
    destruct (isNative s); simpl; [|done]. rewrite Hidle.
    destruct (sdk_import env) as [[]|e]; simpl; [|split; quiet_calls].
    destruct (sdk_restorePurchases env) as [o|e]; simpl; split; quiet_calls.
  - unfold checkPremiumStatus, sdk. munfold.
    destruct (isNative s); simpl; [|done]. rewrite Hidle.
    destruct (sdk_import env) as [[]|e]; simpl; [|split; quiet_calls].
    destruct (sdk_getCustomerInfo env) as [o|e]; simpl; split; quiet_calls.
Qed.


Lemma configurations_bound ops s :
  (configurations ops s
   <= (if configured s then 0 else 1) + setAppUserId_calls ops)%nat.
Proof.
  revert s. induction ops as [|op ops IH]; intros s.
  - simpl. lia.
  - unfold setAppUserId_calls in *. simpl configurations.
    rewrite filter_cons. specialize (IH (step op s []).1).
    destruct (is_sdk_op op) eqn:Hop.
    + destruct (decide (true = false)); [done|].
      destruct (configured s) eqn:Hc.
      * destruct (sdk_op_settled op s [] Hop Hc) as [E _].
        rewrite E, Hc in *. simpl. lia.
      * simpl negb. rewrite andb_true_l.
        destruct (configured (step op s []).1); simpl in *; lia.
    + destruct (decide (false = false)); [|done].
      destruct op; try discriminate. simpl in *.
      destruct (configured s); simpl; lia.
Qed.

(** From an unconfigured service on a device with a key and a loadable
    SDK, every SDK operation calls [configure] with the stored identity. *)
Lemma sdk_op_configures op env s t k :
  op_env op = Some env ->
  isNative s = true -> configured s = false ->
  getApiKey env s = Some k -> nonempty k = true -> sdk_import env = Ok tt ->
  Configure k (appUserId s) ∈ (step op s t).2.
Proof.
  intros Hop Hn Hc Hk Hne Hi.
  assert (Hrun : exists r s',
             ensureConfigured env s t
             = (r, s', ((t ++ [Import]) ++ [SetLogLevel])
                         ++ [Configure k (appUserId s)])).
  { unfold ensureConfigured, sdk. munfold. rewrite Hn, Hc, Hk, Hne, Hi. simpl.
    destruct (sdk_setLogLevel env) as [[]|e'];
      destruct (sdk_configure env) as [[]|e]; by do 2 eexists. }
  destruct Hrun as (r & s' & Hrun).
  destruct op as [id|env' ids|env' pid|env'|env']; simpl in Hop;
    [discriminate|injection Hop as ->..]; unfold step.
  - unfold getProducts, sdk. munfold. rewrite Hn. simpl. rewrite Hrun, Hi. simpl.
    destruct r as [[]|e]; simpl; [|set_solver].
    destruct (sdk_getOfferings env) as [o|e]; simpl; [|set_solver].
    destruct (packages_of o); simpl; set_solver.
  - unfold purchase, sdk, purchase_attempt, purchase_failed. munfold.
    rewrite Hn. simpl. rewrite Hrun, Hi. simpl.
    destruct r as [[]|e]; simpl; [|set_solver].
    destruct (sdk_getOfferings env) as [o|e]; simpl.
    + destruct (find _ (packages_of o)) as [pkg|]; simpl; [|set_solver].
      destruct (sdk_purchasePackage env pkg) as [x|e]; simpl; [set_solver|].
      set_solver.
    + set_solver.
  - unfold restorePurchases, sdk. munfold. rewrite Hn. simpl. rewrite Hrun, Hi. simpl.
    destruct r as [[]|e]; simpl; [|set_solver].
    destruct (sdk_restorePurchases env) as [o|e]; simpl; set_solver.
  - unfold checkPremiumStatus, sdk. munfold. rewrite Hn. simpl. rewrite Hrun, Hi. simpl.
    destruct r as [[]|e]; simpl; [|set_solver].
    destruct (sdk_getCustomerInfo env) as [o|e]; simpl; set_solver.
Qed.


(** *** [checkPremiumStatus] *)

Lemma checkPremiumStatus_cases env s t :
  isNative s = true ->
  match check_failure env s with
  | Some e =>
      exists s' t',
        checkPremiumStatus env s t
        = (Ok {| isPremium := false; expiresAt := None |}, s', t')
  | None =>
      exists info t',
        sdk_getCustomerInfo env = Ok info
        /\ checkPremiumStatus env s t
           = (Ok (status_of (premium_entitlement info)),
              configured_state s, t')
  end.
Proof.
  intros Hn. unfold check_failure.
  pose proof (ensureConfigured_cases env s t) as H.
  unfold checkPremiumStatus, sdk. munfold. rewrite Hn. simpl.
  destruct (configure_error env s) as [e|]; destruct H as [t1 ->];
    [by do 2 eexists|].
  destruct (sdk_import env) as [[]|e]; [|by do 2 eexists].
  destruct (sdk_getCustomerInfo env) as [info|e]; by do 2 eexists.
Qed.

(** A failed query is logged before the status is returned. *)
Lemma checkPremiumStatus_failure_logged env s t e :
  isNative s = true -> check_failure env s = Some e ->
  exists s' t',
    checkPremiumStatus env s t
    = (Ok {| isPremium := false; expiresAt := None |}, s',
       t' ++ [ConsoleError "[IAP] Failed to check premium status:" e]).
Proof.
  intros Hn. unfold check_failure.
  pose proof (ensureConfigured_cases env s t) as H.
  unfold checkPremiumStatus, sdk. munfold. rewrite Hn. simpl.
  destruct (configure_error env s) as [e0|]; destruct H as [t1 ->].
  - intros [= <-]. by do 2 eexists.
  - destruct (sdk_import env) as [[]|e0]; [|intros [= <-]; by do 2 eexists].
    destruct (sdk_getCustomerInfo env) as [info|e0]; [done|].
    intros [= <-]. by do 2 eexists.
Qed.

Lemma checkPremiumStatus_returns env s t :
  exists st s' t', checkPremiumStatus env s t = (Ok st, s', t').
Proof.
  destruct (isNative s) eqn:Hn.
  - pose proof (checkPremiumStatus_cases env s t Hn) as H.
    destruct (check_failure env s).
    + destruct H as (s' & t' & ->). by do 3 eexists.
    + destruct H as (info & t' & _ & ->). by do 3 eexists.
  - unfold checkPremiumStatus. munfold. rewrite Hn. by do 3 eexists.
Qed.
End IAPFacts.

(** ** Properties of the entitlement resolver *)

Module PremiumFacts.
Import Premium PremiumRuns.

Section Host.
Variable Date_parse : string -> option Z.
Variable toISOString : Z -> string.

Abbreviation fetch := (fetchPremiumStatus Date_parse toISOString).

(** The advisory write never throws and leaves the state alone; the
    update is issued unless rendering the expiry throws. *)
Lemma sync_run env uid st s t :
  sync Date_parse toISOString env uid st s t
  = (Ok tt, s,
     match expiry_column Date_parse toISOString (IAP.expiresAt st) with
     | Ok column => t ++ [DbUpdate uid (IAP.isPremium st) column]
     | Throw _ => t
     end).
Proof.
  unfold sync. munfold.
  destruct (expiry_column _ _ _) as [column|e]; [|done].
  by destruct (db_update env).
Qed.

(** On a device the resolver adopts what [checkPremiumStatus] returns. *)
Lemma fetch_on_device env u s t st svc evs :
  IAP.isAvailable (iapService s) = true ->
  IAP.checkPremiumStatus (iap_env env) (service_for u s) [] = (Ok st, svc, evs) ->
  fetch env (Some u) s t
  = (Ok tt,
     {| iapService := svc; isPremium := IAP.isPremium st; isLoading := false |},
     match expiry_column Date_parse toISOString (IAP.expiresAt st) with
     | Ok column =>
         (t ++ (Iap <$> evs)) ++ [DbUpdate (id u) (IAP.isPremium st) column]
     | Throw _ => t ++ (Iap <$> evs)
     end).
Proof.
  intros Hn Hc. unfold fetchPremiumStatus, setIsPremium, setIsLoading, lift.
  unfold service_for in Hc. munfold. rewrite Hn. simpl.
  rewrite Hc. simpl. rewrite sync_run. simpl.
  by rewrite app_nil_r.
Qed.

(** In a browser the resolver reads the cache record. *)
Lemma fetch_in_browser env u s t :
  IAP.isAvailable (iapService s) = false ->
  fetch env (Some u) s t
  = match db_select env with
    | Throw e =>
        (Ok tt,
         {| iapService := iapService s; isPremium := isPremium s;
            isLoading := false |},
         (t ++ [DbSelect (id u)])
           ++ [ConsoleError "Error fetching premium status:" e])
    | Ok resp =>
        match error resp, data resp with
        | Some e, _ =>
            (Ok tt,
             {| iapService := iapService s; isPremium := isPremium s;
                isLoading := false |},
             (t ++ [DbSelect (id u)])
               ++ [ConsoleError "Error fetching premium status:" e])
        | None, Some row =>
            (Ok tt,
             {| iapService := iapService s;
                isPremium := isActive Date_parse (now env) row;
                isLoading := false |},
             t ++ [DbSelect (id u)])
        | None, None =>
            (Ok tt,
             {| iapService := iapService s; isPremium := isPremium s;
                isLoading := false |},
             t ++ [DbSelect (id u)])
        end
    end.
Proof.
  intros Hn. unfold fetchPremiumStatus, setIsPremium, setIsLoading.
  munfold. rewrite Hn. simpl.
  destruct (db_select env) as [resp|e]; [|done].
  destruct (error resp), (data resp); done.
Qed.

Lemma isActive_spec now row :
  isActive Date_parse now row = true <-> cache_active Date_parse now row.
Proof.
  unfold isActive, cache_active, in_future.
  rewrite andb_true_iff, orb_true_iff, negb_true_iff.
  split; intros [Hp H]; (split; [done|]).
  - destruct H as [H|H]; [by left|right].
    destruct (premium_expires_at row) as [e|]; [|done].
    destruct (Date_parse e) as [ms|] eqn:Hd; [|done].
    apply bool_decide_eq_true in H. by exists e, ms.
  - destruct H as [H|(e & ms & -> & -> & H)]; [by left|right].
    by apply bool_decide_eq_true.
Qed.

(** Without a signed-in user the flag is cleared. *)
Lemma fetch_signed_out env s t :
  fetch env None s t
  = (Ok tt,
     {| iapService := iapService s; isPremium := false; isLoading := false |},
     t).
Proof. reflexivity. Qed.

(** C1, as the code has it.  For a signed-in user the resolver always
    completes normally and clears the loading flag.  A failure of the
    native query is logged by the service and resolves the premium flag to
    false, which is then written to the cache; a failure of the cache read
    is logged by the resolver, after the one read, and leaves the premium
    flag as it was before the call. *)
Theorem fetchPremiumStatus_never_rejects env u s t :
  outcome (fetch env (Some u) s t) = Ok tt
  /\ isLoading (final (fetch env (Some u) s t)) = false
  /\ (IAP.isAvailable (iapService s) = true ->
      forall e,
        IAPRuns.check_failure (iap_env env) (service_for u s) = Some e ->
        isPremium (final (fetch env (Some u) s t)) = false
        /\ exists before,
             calls (fetch env (Some u) s t)
             = ((t ++ (Iap <$> before))
                  ++ [Iap (IAP.ConsoleError
                             "[IAP] Failed to check premium status:" e)])
                 ++ [DbUpdate (id u) false None])
  /\ (IAP.isAvailable (iapService s) = false ->
      forall e,
        read_error env = Some e ->
        isPremium (final (fetch env (Some u) s t)) = isPremium s
        /\ calls (fetch env (Some u) s t)
           = (t ++ [DbSelect (id u)])
               ++ [ConsoleError "Error fetching premium status:" e]).
Proof.
  destruct (IAP.isAvailable (iapService s)) eqn:Hn.
  - destruct (IAPFacts.checkPremiumStatus_returns (iap_env env)
                (service_for u s) []) as (st & svc & evs & Hc).
    rewrite (fetch_on_device env u s t st svc evs Hn Hc).
    split; [done|]. split; [done|]. split; [|discriminate].
    intros _ e He.
    destruct (IAPFacts.checkPremiumStatus_failure_logged (iap_env env)
                (service_for u s) [] e Hn He) as (s' & t' & Hlog).
    rewrite Hc in Hlog. injection Hlog as -> -> ->.
    split; [done|]. exists t'. unfold calls. simpl.
    by rewrite fmap_app, app_assoc.
  - rewrite (fetch_in_browser env u s t Hn). unfold read_error.
    destruct (db_select env) as [resp|e0].
    + destruct (error resp) as [e0|] eqn:He, (data resp);
        (split; [done|]); (split; [done|]); (split; [discriminate|]);
        intros _ e [= <-]; done.
    + split; [done|]. split; [done|]. split; [discriminate|].
      by intros _ e [= <-].
Qed.

(** C2, as the code has it.  In a browser, when the read returns a
    record, the premium flag becomes true exactly when the stored flag is
    true and no expiry is stored or the stored expiry is strictly in the
    future: a record with a past expiry gives false whatever its flag,
    a record with flag true and no expiry gives true.  When the read
    returns no record the resolver completes normally and leaves the
    premium flag as it was. *)
Theorem fetchPremiumStatus_from_cache env u s t resp :
  IAP.isAvailable (iapService s) = false ->
  db_select env = Ok resp -> error resp = None ->
  outcome (fetch env (Some u) s t) = Ok tt
  /\ match data resp with
     | Some row =>
         (isPremium (final (fetch env (Some u) s t)) = true
          <-> cache_active Date_parse (now env) row)
         /\ (forall e ms,
               premium_expires_at row = Some e -> nonempty e = true ->
               Date_parse e = Some ms -> ms <= now env ->
               isPremium (final (fetch env (Some u) s t)) = false)
         /\ (is_premium row = true -> premium_expires_at row = None ->
             isPremium (final (fetch env (Some u) s t)) = true)
     | None => isPremium (final (fetch env (Some u) s t)) = isPremium s
     end.
Proof.
  intros Hn Hs He. rewrite (fetch_in_browser env u s t Hn), Hs, He.
  destruct (data resp) as [row|]; [|done]. simpl.
  split; [done|]. split; [apply isActive_spec|]. split.
  - intros e ms Hrow Hne Hd Hpast.
    apply not_true_is_false. intros (_ & H)%isActive_spec.
    destruct H as [H|(e' & ms' & He' & Hd' & Hlt)].
    + rewrite Hrow in H. simpl in H. congruence.
    + rewrite Hrow in He'. injection He' as <-.
      rewrite Hd in Hd'. injection Hd' as <-. lia.
  - intros Hp Hnone. apply isActive_spec. split; [done|].
    left. by rewrite Hnone.
Qed.

(** C3, as the code has it.  When the device reports an active "premium"
    entitlement whose expiry, under either field name, is "2099-01-01",
    [checkPremiumStatus] returns [{isPremium: true, expiresAt:
    "2099-01-01"}]; the resolver sets the premium flag and then issues the
    database update with the flag and with the expiry rendered by
    [toISOString]; it completes normally whatever the update answers. *)
Theorem native_premium_until_2099 env u s t info ent ms :
  IAP.isAvailable (iapService s) = true ->
  IAPRuns.check_failure (iap_env env) (service_for u s) = None ->
  IAP.sdk_getCustomerInfo (iap_env env) = Ok info ->
  IAP.premium_entitlement info = Some ent ->
  (IAP.expirationDate ent = Some "2099-01-01"
   \/ (truthy (IAP.expirationDate ent) = false
       /\ IAP.expiresDate ent = Some "2099-01-01")) ->
  Date_parse "2099-01-01" = Some ms ->
  outcome (IAP.checkPremiumStatus (iap_env env) (service_for u s) [])
  = Ok {| IAP.isPremium := true; IAP.expiresAt := Some "2099-01-01" |}
  /\ outcome (fetch env (Some u) s t) = Ok tt
  /\ isPremium (final (fetch env (Some u) s t)) = true
  /\ isLoading (final (fetch env (Some u) s t)) = false
  /\ calls (fetch env (Some u) s t)
     = (t ++ (Iap <$> calls (IAP.checkPremiumStatus (iap_env env)
                               (service_for u s) [])))
         ++ [DbUpdate (id u) true (Some (toISOString ms))].
Proof.
  intros Hn Hok Hinfo Hent Hexp Hd.
  pose proof (IAPFacts.checkPremiumStatus_cases (iap_env env)
                (service_for u s) [] Hn) as H.
  rewrite Hok in H. destruct H as (info' & evs & Hinfo' & Hc).
  rewrite Hinfo in Hinfo'. injection Hinfo' as <-.
  assert (Hst : IAP.status_of (IAP.premium_entitlement info)
                = {| IAP.isPremium := true;
                     IAP.expiresAt := Some "2099-01-01" |}).
  { rewrite Hent. unfold IAP.status_of, js_or. simpl.
    destruct Hexp as [->|[Hf ->]]; [done|]. by rewrite Hf. }
  rewrite Hst in Hc.
  rewrite (fetch_on_device env u s t _ _ _ Hn Hc), Hc.
  unfold expiry_column, iso_of. simpl. rewrite Hd. done.
Qed.
End Host.

Import Fixtures.

Lemma fetchPremiumStatus_never_rejects_witness :
  (isPremium
     (final (fetchPremiumStatus Date_parse toISOString
               (browser_world (Throw (Error "Failed to fetch")))
               (Some u1) (provider in_browser false) []))
   = false
   /\ calls (fetchPremiumStatus Date_parse toISOString
               (browser_world (Throw (Error "Failed to fetch")))
               (Some u1) (provider in_browser false) [])
      = ([] ++ [DbSelect "u1"])
          ++ [ConsoleError "Error fetching premium status:"
                (Error "Failed to fetch")])
  /\ isPremium
       (final (fetchPremiumStatus Date_parse toISOString
                 keyless_device_world (Some u1) (provider on_android true) []))
     = false.
Proof.
  split.
  - apply (fetchPremiumStatus_never_rejects Date_parse toISOString
             (browser_world (Throw (Error "Failed to fetch")))
             u1 (provider in_browser false) []); reflexivity.
  - eapply (fetchPremiumStatus_never_rejects Date_parse toISOString
              keyless_device_world u1 (provider on_android true) []);
      reflexivity.
Defined.

(** C1, the claim refuted.  A provider that shows premium refreshes in a
    browser and the read is rejected: the error is caught and logged, the
    call completes, and the premium flag is still true. *)
Lemma stale_flag_after_failed_read :
  fetchPremiumStatus Date_parse toISOString
    (browser_world (Throw (Error "Failed to fetch")))
    (Some u1) (provider in_browser true) []
  = (Ok tt,
     {| iapService := in_browser; isPremium := true; isLoading := false |},
     [DbSelect "u1";
      ConsoleError "Error fetching premium status:" (Error "Failed to fetch")]).
Proof. reflexivity. Qed.

Lemma fetchPremiumStatus_from_cache_witness :
  isPremium
    (final (fetchPremiumStatus Date_parse toISOString
              (browser_world (row true (Some "2001-01-01")))
              (Some u1) (provider in_browser false) []))
  = false
  /\ isPremium
       (final (fetchPremiumStatus Date_parse toISOString
                 (browser_world (row true None))
                 (Some u1) (provider in_browser false) []))
     = true
  /\ isPremium
       (final (fetchPremiumStatus Date_parse toISOString
                 (browser_world no_row)
                 (Some u1) (provider in_browser false) []))
     = false.
Proof.
  split; [|split].
  - destruct (fetchPremiumStatus_from_cache Date_parse toISOString
                (browser_world (row true (Some "2001-01-01")))
                u1 (provider in_browser false) [] _
                eq_refl eq_refl eq_refl) as (_ & _ & Hpast & _).
    apply (Hpast "2001-01-01" 978307200000); [reflexivity..|].
    unfold browser_world, clock. simpl. lia.
  - destruct (fetchPremiumStatus_from_cache Date_parse toISOString
                (browser_world (row true None))
                u1 (provider in_browser false) [] _
                eq_refl eq_refl eq_refl) as (_ & _ & _ & Hopen).
    apply Hopen; reflexivity.
  - destruct (fetchPremiumStatus_from_cache Date_parse toISOString
                (browser_world no_row)
                u1 (provider in_browser false) [] _
                eq_refl eq_refl eq_refl) as (_ & Hkept).
    exact Hkept.
Defined.

(** C2, the claim refuted.  A provider that shows premium refreshes in a
    browser and the read finds no record: the call completes and the
    premium flag is still true. *)
Lemma stale_flag_without_record :
  fetchPremiumStatus Date_parse toISOString (browser_world no_row)
    (Some u1) (provider in_browser true) []
  = (Ok tt,
     {| iapService := in_browser; isPremium := true; isLoading := false |},
     [DbSelect "u1"]).
Proof. reflexivity. Qed.

Lemma native_premium_until_2099_witness :
  outcome (IAP.checkPremiumStatus healthy
             (service_for u1 (provider on_android false)) [])
  = Ok {| IAP.isPremium := true; IAP.expiresAt := Some "2099-01-01" |}
  /\ outcome (fetchPremiumStatus Date_parse toISOString device_world
                (Some u1) (provider on_android false) []) = Ok tt
  /\ isPremium (final (fetchPremiumStatus Date_parse toISOString device_world
                         (Some u1) (provider on_android false) [])) = true
  /\ isLoading (final (fetchPremiumStatus Date_parse toISOString device_world
                         (Some u1) (provider on_android false) [])) = false
  /\ calls (fetchPremiumStatus Date_parse toISOString device_world
              (Some u1) (provider on_android false) [])
     = ([] ++ (Iap <$> calls (IAP.checkPremiumStatus healthy
                                (service_for u1 (provider on_android false))
                                [])))
         ++ [DbUpdate "u1" true (Some "2099-01-01T00:00:00.000Z")].
Proof.
  apply (native_premium_until_2099 Date_parse toISOString device_world u1
           (provider on_android false) [] customer premium_until_2099
           4070908800000); try reflexivity.
  left. reflexivity.
Defined.

(** C3, the claim refuted.  In the scenario the update that is issued
    carries the expiry as [toISOString] renders it; no update carries the
    string "2099-01-01" that the resolver returned.  The update is
    rejected here, and the call completes all the same. *)
Lemma cache_write_carries_iso_expiry :
  fetchPremiumStatus Date_parse toISOString device_world
    (Some u1) (provider on_android false) []
  = (Ok tt,
     {| iapService :=
          {| IAP.isNative := true; IAP.currentPlatform := IAP.google;
             IAP.configured := true; IAP.appUserId := Some "u1" |};
        isPremium := true; isLoading := false |},
     [Iap IAP.Import; Iap IAP.SetLogLevel;
      Iap (IAP.Configure "goog_key" (Some "u1"));
      Iap IAP.Import; Iap IAP.GetCustomerInfo;
      DbUpdate "u1" true (Some "2099-01-01T00:00:00.000Z")])
  /\ DbUpdate "u1" true (Some "2099-01-01")
     ∉ calls (fetchPremiumStatus Date_parse toISOString device_world
                (Some u1) (provider on_android false) []).
Proof.
  split; [reflexivity|].
  intros H. vm_compute in H.
  repeat (apply elem_of_cons in H as [H|H]; [discriminate|]).
  by apply elem_of_nil in H.
Qed.
End PremiumFacts.

(** ** Properties of the credential form *)

Module AuthFacts.
Import Auth AuthRuns.

Lemma nonempty_false s : nonempty s = false <-> s = "".
Proof. by destruct s. Qed.

Section Host.
Variable trim : string -> string.

(** Every submission completes and re-enables the form. *)
Lemma handleSubmit_returns env s t :
  outcome (handleSubmit trim env s t) = Ok tt
  /\ isSubmitting (final (handleSubmit trim env s t)) = false.
Proof.
  unfold handleSubmit, setIsSubmitting, setMode. munfold. simpl.
  destruct (nonempty (email s)), (nonempty (password s)); simpl; try done.
  destruct (mode s); simpl.
  - by destruct (auth_signIn env).
  - by destruct (auth_signUp env).
Qed.

(** C8.  A submission with an empty email or an empty password shows the
    "Missing info" notification and nothing else: neither sign-in nor
    sign-up is called, and the mode and the fields are unchanged. *)
Theorem empty_credentials_stay_local env s t :
  email s = "" \/ password s = "" ->
  handleSubmit trim env s t
  = (Ok tt,
     {| mode := mode s; email := email s; password := password s;
        isSubmitting := false |},
     (t ++ [PreventDefault])
       ++ [Toast "Missing info" "Please enter an email and password."])
  /\ filter (fun ev => is_remote ev = true)
       (calls (handleSubmit trim env s t))
     = filter (fun ev => is_remote ev = true) t.
Proof.
  intros H.
  assert (Hrun : handleSubmit trim env s t
                 = (Ok tt,
                    {| mode := mode s; email := email s;
                       password := password s; isSubmitting := false |},
                    (t ++ [PreventDefault])
                      ++ [Toast "Missing info"
                            "Please enter an email and password."])).
  { unfold handleSubmit, setIsSubmitting. munfold. simpl.
    destruct H as [H|H]; rewrite H; simpl; [done|].
    by destruct (nonempty (email s)). }
  split; [exact Hrun|]. rewrite Hrun. unfold calls. simpl.
  rewrite !filter_app. simpl. by rewrite !app_nil_r.
Qed.

(** C9.  In sign-up mode with both fields filled in, when the sign-up
    call resolves (its answer carries nothing about confirmation, and
    none is consulted) exactly one notification is shown, "Check your
    email", and the mode becomes sign-in. *)
Theorem signup_shows_confirmation env s t :
  mode s = signup -> email s <> "" -> password s <> "" ->
  auth_signUp env = Ok tt ->
  handleSubmit trim env s t
  = (Ok tt,
     {| mode := signin; email := email s; password := password s;
        isSubmitting := false |},
     ((t ++ [PreventDefault])
        ++ [SignUp (trim (email s)) (password s)])
       ++ [Toast "Check your email"
             "We sent a confirmation email. After confirming, come back and sign in."]).
Proof.
  intros Hm He Hp Hup.
  unfold handleSubmit, setIsSubmitting, setMode. munfold. simpl.
  destruct (nonempty (email s)) eqn:E1;
    [|by apply nonempty_false in E1].
  destruct (nonempty (password s)) eqn:E2;
    [|by apply nonempty_false in E2].
  simpl. by rewrite Hm, Hup.
Qed.
End Host.

Import Fixtures.

Lemma empty_credentials_stay_local_witness :
  handleSubmit trim backend_up (form signin "a@b.com" "") []
  = (Ok tt, form signin "a@b.com" "",
     [PreventDefault;
      Toast "Missing info" "Please enter an email and password."])
  /\ filter (fun ev => is_remote ev = true)
       (calls (handleSubmit trim backend_up (form signin "a@b.com" "") []))
     = [].
Proof.
  apply (empty_credentials_stay_local trim backend_up
           (form signin "a@b.com" "") []).
  right. reflexivity.
Defined.

Lemma signup_shows_confirmation_witness :
  handleSubmit trim backend_up (form signup "a@b.com" "x") []
  = (Ok tt, form signin "a@b.com" "x",
     [PreventDefault; SignUp "a@b.com" "x";
      Toast "Check your email"
        "We sent a confirmation email. After confirming, come back and sign in."]).
Proof.
  apply (signup_shows_confirmation trim backend_up
           (form signup "a@b.com" "x") []); try done.
Defined.
End AuthFacts.

(** ** Further properties of the purchase service *)

Module IAPExtra.
Import IAP IAPRuns.

(** *** Traces *)

Lemma filter_snoc_bool {A} (f : A -> bool) (t : list A) (x : A) :
  filter (fun y => f y = true) (t ++ [x])
  = filter (fun y => f y = true) t ++ (if f x then [x] else []).
Proof.
  rewrite filter_app, filter_cons, filter_nil.
  destruct (f x); by destruct (decide _).
Qed.

Lemma filter_bool_nil {A} (f : A -> bool) (l : list A) :
  Forall (fun y => f y = false) l -> filter (fun y => f y = true) l = [].
Proof.
  induction 1 as [|x l Hx _ IH]; [done|].
  rewrite filter_cons, IH. destruct (decide _); congruence.
Qed.

Lemma omap_ext_all {A B} (f g : A -> option B) (l : list A) :
  (forall x, f x = g x) -> omap f l = omap g l.
Proof.
  intros H. induction l as [|x l IH]; [done|].
  csimpl. by rewrite H, IH.
Qed.

Lemma omap_length_le {A B} (f : A -> option B) (l : list A) :
  (length (omap f l) <= length l)%nat.
Proof.
  induction l as [|x l IH]; [done|].
  csimpl. destruct (f x); simpl; lia.
Qed.

(** What [ensureConfigured] returns, leaves and calls. *)
Lemma ensureConfigured_run env s t :
  ensureConfigured env s t
  = (match configure_error env s with Some e => Throw e | None => Ok tt end,
     match configure_error env s with Some _ => s | None => configured_state s end,
     t ++ setup_calls env s).
Proof.
  unfold configure_error, configured_state, setup_calls.
  destruct (negb (isNative s) || configured s) eqn:Hidle.
  - rewrite IAPFacts.ensureConfigured_idle by done. by rewrite app_nil_r.
  - apply orb_false_iff in Hidle as [Hn Hc]. apply negb_false_iff in Hn.
    unfold ensureConfigured, sdk. munfold. rewrite Hn, Hc. simpl.
    destruct (getApiKey env s) as [k|]; simpl; [|by rewrite app_nil_r].
    destruct (nonempty k); [|by rewrite app_nil_r].
    destruct (sdk_import env) as [[]|e]; [|done].
    destruct (sdk_setLogLevel env) as [[]|e'];
      (destruct (sdk_configure env) as [[]|e];
       by rewrite <- !app_assoc).
Qed.

Lemma setup_calls_no_purchase env s :
  Forall (fun ev => is_purchase ev = false) (setup_calls env s).
Proof.
  unfold setup_calls. destruct (negb _ || _); [done|].
  destruct (getApiKey env s) as [k|]; [|done].
  destruct (nonempty k); [|done].
  destruct (sdk_import env); repeat constructor.
Qed.

Lemma configure_calls_setup env s :
  configure_calls (setup_calls env s) = configure_attempt env s.
Proof.
  unfold configure_calls, setup_calls, configure_attempt.
  destruct (isNative s), (configured s); simpl; try done.
  destruct (getApiKey env s) as [k|]; [|done].
  destruct (sdk_import env), (nonempty k); done.
Qed.

(** *** The transaction id of a successful purchase *)

(** X1.  The transaction id of a purchase result is never the empty string:
    it is the first non-empty field of the five that are tried, in their
    order, and absent when none of them is non-empty. *)
Theorem transactionId_first_nonempty (r : PurchaseSdkResult) :
  transactionId_of r
  = list_find (fun f => truthy f = true) (transaction_fields r) ≫= snd
  /\ transactionId_of r <> Some "".
Proof.
  unfold transactionId_of, transaction_fields, js_or.
  destruct r as [f1 f2 f3 f4 f5]. simpl.
  destruct f1 as [[|]|], f2 as [[|]|], f3 as [[|]|], f4 as [[|]|], f5 as [[|]|];
    split; simpl; try reflexivity; discriminate.
Qed.

(** *** [purchase] *)

(** X2.  When the service can be configured and the catalog sells the
    requested id, [purchase] buys the first package of the catalog that
    carries this id, as its last call, and returns a success outcome with the
    requested id, the platform, the transaction id and the raw result. *)
Theorem purchase_buys_first_match env pid s t offerings pkg r :
  isNative s = true -> configure_error env s = None -> sdk_import env = Ok tt ->
  sdk_getOfferings env = Ok offerings ->
  find (sells pid) (packages_of offerings) = Some pkg ->
  sdk_purchasePackage env pkg = Ok r ->
  outcome (purchase env pid s t)
  = Ok {| success := true; productId := Some pid;
          transactionId := transactionId_of r;
          platform := currentPlatform s;
          raw := Some (RawResult r); error := None |}
  /\ last (calls (purchase env pid s t)) = Some (PurchasePackage pkg)
  /\ package_pid pkg = Some pid
  /\ (exists before after,
        packages_of offerings = before ++ pkg :: after
        /\ Forall (fun p => sells pid p = false) before).
Proof.
  intros Hn Hc Hi Ho Hf Hp.
  destruct (IAPFacts.purchase_ready env pid s t Hn Hc Hi) as [t1 ->].
  unfold purchase_attempt. munfold. rewrite Ho. simpl.
  unfold sells in Hf. rewrite Hf. simpl. rewrite Hp. simpl.
  rewrite IAPFacts.currentPlatform_configured_state.
  split; [done|]. split; [by rewrite last_snoc|].
  assert (Hs : sells pid pkg = true /\
               exists before after,
                 packages_of offerings = before ++ pkg :: after
                 /\ Forall (fun p => sells pid p = false) before).
  { clear -Hf. fold (sells pid) in Hf.
    induction (packages_of offerings) as [|p l IH]; [discriminate|].
    simpl in Hf. destruct (sells pid p) eqn:E.
    - injection Hf as ->. split; [done|]. by exists [], l.
    - destruct (IH Hf) as (Hs & before & after & -> & Hb).
      split; [done|]. exists (p :: before), after. split; [done|].
      by constructor. }
  destruct Hs as [Hs Hsplit]. split; [|exact Hsplit].
  unfold sells, strict_eq in Hs. destruct (package_pid pkg) as [x|]; [|done].
  apply bool_decide_eq_true in Hs. by subst.
Qed.

Lemma purchase_buys_first_match_witness :
  outcome (purchase Fixtures.healthy "cozy_premium_monthly"
             Fixtures.on_android [])
  = Ok {| success := true; productId := Some "cozy_premium_monthly";
          transactionId := Some "GPA.1234"; platform := google;
          raw := Some (RawResult Fixtures.bought); error := None |}.
Proof.
  apply (purchase_buys_first_match Fixtures.healthy "cozy_premium_monthly"
           Fixtures.on_android [] Fixtures.catalog Fixtures.monthly
           Fixtures.bought); reflexivity.
Defined.

(** X3.  [purchase] never buys anything but what was asked for: a package
    handed to [purchasePackage] is in the catalog the SDK returned and its
    id is the requested one (so nothing is bought off the device, when the
    configuration fails, or when the catalog does not sell the id); and at
    most one purchase is made. *)
Theorem purchase_only_what_was_asked env pid s :
  (forall pkg,
     PurchasePackage pkg ∈ calls (purchase env pid s []) ->
     isNative s = true
     /\ package_pid pkg = Some pid
     /\ exists offerings, sdk_getOfferings env = Ok offerings
                          /\ pkg ∈ packages_of offerings)
  /\ (length (filter (fun ev => is_purchase ev = true)
                (calls (purchase env pid s []))) <= 1)%nat.
Proof.
  pose proof (setup_calls_no_purchase env s) as Hsetup.
  assert (Hnone : forall pkg, PurchasePackage pkg ∉ setup_calls env s).
  { intros pkg Hin. rewrite Forall_forall in Hsetup.
    by specialize (Hsetup _ Hin). }
  unfold purchase, sdk, purchase_attempt, purchase_failed. munfold.
  destruct (isNative s) eqn:Hn; simpl.
  2:{ split; [intros pkg H; by apply elem_of_nil in H|simpl; lia]. }
  rewrite ensureConfigured_run. simpl.
  destruct (configure_error env s) as [e|].
  { split; [intros pkg H; by apply Hnone in H|].
    rewrite filter_bool_nil by done. simpl. lia. }
  destruct (sdk_import env) as [[]|e]; simpl.
  2:{ split.
      - intros pkg [H|H%list_elem_of_singleton]%elem_of_app;
          [by apply Hnone in H|done].
      - rewrite filter_snoc_bool, filter_bool_nil by done. simpl. lia. }
  destruct (sdk_getOfferings env) as [o|e]; simpl.
  2:{ split.
      - intros pkg H. rewrite !elem_of_app, !list_elem_of_singleton in H.
        destruct H as [[H|H]|H]; [by apply Hnone in H|done..].
      - rewrite !filter_snoc_bool, filter_bool_nil by done. simpl. lia. }
  destruct (find _ (packages_of o)) as [found|] eqn:Hf; simpl.
  2:{ split.
      - intros pkg H. rewrite !elem_of_app, !list_elem_of_singleton in H.
        destruct H as [[H|H]|H]; [by apply Hnone in H|done..].
      - rewrite !filter_snoc_bool, filter_bool_nil by done. simpl. lia. }
  apply find_some in Hf as [Hin Hs].
  assert (Hgoal : forall pkg,
             PurchasePackage pkg
             ∈ ((setup_calls env s ++ [Import]) ++ [GetOfferings])
                 ++ [PurchasePackage found] ->
             true = true /\ package_pid pkg = Some pid
             /\ exists offerings, Ok o = Ok offerings
                                  /\ pkg ∈ packages_of offerings).
  { intros pkg H. rewrite !elem_of_app, !list_elem_of_singleton in H.
    destruct H as [[[H|H]|H]|H]; [by apply Hnone in H|done..|].
    injection H as ->. split; [done|]. split.
    - unfold strict_eq in Hs. destruct (package_pid found); [|done].
      apply bool_decide_eq_true in Hs. by subst.
    - exists o. split; [done|]. by apply list_elem_of_In. }
  destruct (sdk_purchasePackage env found) as [r|e]; simpl.
  - split; [exact Hgoal|].
    rewrite !filter_snoc_bool, filter_bool_nil by done. simpl. lia.
  - split; [exact Hgoal|].
    rewrite !filter_snoc_bool, filter_bool_nil by done. simpl. lia.
Qed.

Lemma purchase_only_what_was_asked_witness :
  package_pid Fixtures.monthly = Some "cozy_premium_monthly".
Proof.
  apply (purchase_only_what_was_asked Fixtures.healthy "cozy_premium_monthly"
           Fixtures.on_android).
  vm_compute. set_solver.
Defined.

(** X26.  When [purchase] rejects on a device and when it returns.  It
    rejects with the error met before its [try] block, from the
    configuration or the loading of the SDK; and it rejects with a
    [TypeError] when the catalog query or the purchase fails with an error
    that carries no [USER_CANCELLED] code and a message that is not a
    string.  In every other case it returns an outcome tagged with the
    platform: a failure with an error message when the query or the
    purchase failed; and otherwise a success exactly when the catalog sold
    the requested id and the purchase resolved, with an error message
    exactly when it is not a success. *)
Theorem purchase_rejects_or_returns env pid s t :
  isNative s = true ->
  match setup_error env s, purchase_error env pid with
  | Some e, _ => outcome (purchase env pid s t) = Throw e
  | None, Some e =>
      (~ user_cancelled_code e ->
       (exists c shown, message_value e = NotText c shown) ->
       outcome (purchase env pid s t)
       = Throw (Error "msg.toLowerCase is not a function"))
      /\ (user_cancelled_code e
          \/ (forall c shown, message_value e <> NotText c shown) ->
          exists r,
            outcome (purchase env pid s t) = Ok r
            /\ success r = false
            /\ platform r = currentPlatform s
            /\ is_Some (error r))
  | None, None =>
      exists r,
        outcome (purchase env pid s t) = Ok r
        /\ platform r = currentPlatform s
        /\ (success r = true <->
            exists offerings pkg x,
              sdk_getOfferings env = Ok offerings
              /\ find (sells pid) (packages_of offerings) = Some pkg
              /\ sdk_purchasePackage env pkg = Ok x)
        /\ (error r = None <-> success r = true)
  end.
Proof.
  intros Hn. unfold setup_error, purchase, sdk. munfold.
  rewrite Hn. simpl. rewrite ensureConfigured_run. simpl.
  destruct (configure_error env s) as [e|]; [done|].
  destruct (sdk_import env) as [[]|e]; [|done]. simpl.
  pose proof (IAPFacts.purchase_attempt_cases env pid (configured_state s)
                ((t ++ setup_calls env s) ++ [Import])) as Ha.
  destruct (purchase_error env pid) as [e|] eqn:He.
  - destruct Ha as [t2 ->]. rewrite IAPFacts.purchase_failed_run. simpl.
    rewrite IAPFacts.currentPlatform_configured_state.
    pose proof (IAPFacts.user_cancelled_code_iff e) as [Hc1 Hc2].
    unfold purchase_failure.
    destruct (strict_eq (error_code e) "USER_CANCELLED").
    + split; [intros Hnc; destruct Hnc; by apply Hc1|].
      intros _. eexists. split; [done|]. by repeat split.
    + split.
      * intros _ (c & shown & ->). done.
      * intros [Hu|Hm]; [apply Hc2 in Hu; discriminate|].
        destruct (message_value e) as [|m|c shown]; [| |by destruct (Hm c shown)].
        all: destruct (includes _ _); eexists; (split; [done|]);
          by repeat split.
  - destruct Ha as (r & t2 & Ha). rewrite Ha. simpl.
    exists r. split; [done|].
    unfold purchase_error in He. unfold purchase_attempt, sells in *.
    munfold. destruct (sdk_getOfferings env) as [o|e]; [|done]. simpl in Ha.
    destruct (find _ (packages_of o)) as [pkg|] eqn:Hf; simpl in Ha.
    + destruct (sdk_purchasePackage env pkg) as [x|e] eqn:Hp; [|done].
      injection Ha as <- <-. simpl.
      rewrite IAPFacts.currentPlatform_configured_state.
      repeat split; try done. intros _. by exists o, pkg, x.
    + injection Ha as <- <-. simpl.
      rewrite IAPFacts.currentPlatform_configured_state.
      repeat split; try done.
      intros (o' & pkg' & x & [= <-] & Hf' & _). congruence.
Qed.

Lemma purchase_rejects_or_returns_witness :
  outcome (purchase Fixtures.keyless "cozy_premium_monthly"
             Fixtures.on_android [])
  = Throw (Error "[IAP] Missing RevenueCat API key. Set VITE_REVENUECAT_PUBLIC_GOOGLE_KEY in .env")
  /\ outcome (purchase (Fixtures.rejecting Fixtures.numeric_message)
                "cozy_premium_monthly" Fixtures.on_android [])
     = Throw (Error "msg.toLowerCase is not a function").
Proof.
  split.
  - exact (purchase_rejects_or_returns Fixtures.keyless
             "cozy_premium_monthly" Fixtures.on_android [] eq_refl).
  - apply (purchase_rejects_or_returns
             (Fixtures.rejecting Fixtures.numeric_message)
             "cozy_premium_monthly" Fixtures.on_android [] eq_refl).
    + intros [[=]|[[[=]|[=]] _]].
    + by eexists _, _.
Defined.

(** *** Configuration *)

(** X4.  What [setLogLevel] answers makes no difference: with a rejecting
    [setLogLevel] every operation returns the same outcome, leaves the same
    state and makes the same calls as with a resolving one. *)
Theorem setLogLevel_answer_is_ignored (r : result unit) (env : Env) :
  (forall s t, ensureConfigured (with_setLogLevel r env) s t
               = ensureConfigured env s t)
  /\ (forall pid s t, purchase (with_setLogLevel r env) pid s t
                      = purchase env pid s t)
  /\ (forall s t, restorePurchases (with_setLogLevel r env) s t
                  = restorePurchases env s t)
  /\ (forall s t, checkPremiumStatus (with_setLogLevel r env) s t
                  = checkPremiumStatus env s t)
  /\ (forall (IAPProduct : Type) (describe : Package -> string -> IAPProduct)
             ids s t,
        getProducts IAPProduct describe (with_setLogLevel r env) ids s t
        = getProducts IAPProduct describe env ids s t).
Proof.
  assert (H : forall s t, ensureConfigured (with_setLogLevel r env) s t
                          = ensureConfigured env s t).
  { intros. by rewrite !ensureConfigured_run. }
  split; [exact H|].
  repeat split; intros; unfold purchase, restorePurchases, checkPremiumStatus,
    getProducts; munfold; destruct (isNative s); simpl; by rewrite ?H.
Qed.

(** X5.  [ensureConfigured] settles: after it has succeeded, calling it
    again (whatever the SDK would answer) makes no call and changes nothing;
    after it has failed the service is exactly as before, so that the next
    operation tries again from the start. *)
Theorem ensureConfigured_settles env env' s t :
  (outcome (ensureConfigured env s t) = Ok tt ->
   ensureConfigured env' (final (ensureConfigured env s t))
     (calls (ensureConfigured env s t))
   = (Ok tt, final (ensureConfigured env s t),
      calls (ensureConfigured env s t)))
  /\ (outcome (ensureConfigured env s t) <> Ok tt ->
      final (ensureConfigured env s t) = s
      /\ configured s = false).
Proof.
  rewrite ensureConfigured_run. unfold outcome, final, calls. simpl.
  destruct (configure_error env s) as [e|] eqn:Hc; split; try done.
  - intros _. split; [done|]. unfold configure_error in Hc.
    destruct (isNative s), (configured s); simpl in Hc; done.
  - intros _. apply IAPFacts.ensureConfigured_idle.
    unfold configured_state.
    destruct (isNative s) eqn:Hn, (configured s) eqn:Hcf; simpl;
      rewrite ?Hn, ?Hcf; done.
Qed.

Lemma ensureConfigured_settles_witness :
  ensureConfigured Fixtures.keyless
    (final (ensureConfigured Fixtures.healthy Fixtures.on_android []))
    (calls (ensureConfigured Fixtures.healthy Fixtures.on_android []))
  = (Ok tt, Fixtures.configured_anonymously,
     [Import; SetLogLevel; Configure "goog_key" None])
  /\ final (ensureConfigured Fixtures.keyless Fixtures.on_android [])
     = Fixtures.on_android.
Proof.
  split.
  - apply (ensureConfigured_settles Fixtures.healthy Fixtures.keyless
             Fixtures.on_android []). reflexivity.
  - apply (ensureConfigured_settles Fixtures.keyless Fixtures.keyless
             Fixtures.on_android []). discriminate.
Defined.

(** X6.  Every SDK operation makes exactly the [configure] call its starting
    state calls for: one call, with the key of the platform and the identity
    stored, when the service is on a device, unconfigured, has a non-empty
    key and can load the SDK; none otherwise. *)
Theorem one_configure_per_operation op env s t :
  op_env op = Some env ->
  configure_calls (step op s t).2 = configure_calls t ++ configure_attempt env s.
Proof.
  intros Hop.
  assert (Hweb : isNative s = false -> configure_attempt env s = []).
  { intros Hn. unfold configure_attempt. by rewrite Hn. }
  destruct op as [id|env' ids|env' pid|env'|env']; simpl in Hop;
    [discriminate|injection Hop as ->..]; unfold step.
  - unfold getProducts, sdk. munfold.
    destruct (isNative s) eqn:Hn; simpl; [|by rewrite Hweb, app_nil_r].
    rewrite ensureConfigured_run. simpl.
    destruct (configure_error env s); simpl.
    { unfold configure_calls. rewrite filter_app. fold configure_calls.
      by rewrite configure_calls_setup. }
    destruct (sdk_import env) as [[]|e]; simpl;
      [destruct (sdk_getOfferings env) as [o|e]; simpl;
       [destruct (packages_of o); simpl|]|].
    all: unfold configure_calls; rewrite ?filter_snoc_bool; simpl;
      rewrite ?app_nil_r, filter_app; fold configure_calls;
      by rewrite configure_calls_setup.
  - unfold purchase, sdk, purchase_attempt, purchase_failed. munfold.
    destruct (isNative s) eqn:Hn; simpl; [|by rewrite Hweb, app_nil_r].
    rewrite ensureConfigured_run. simpl.
    destruct (configure_error env s); simpl.
    { unfold configure_calls. rewrite filter_app. fold configure_calls.
      by rewrite configure_calls_setup. }
    destruct (sdk_import env) as [[]|e]; simpl;
      [destruct (sdk_getOfferings env) as [o|e]; simpl;
       [destruct (find _ (packages_of o)) as [pkg|]; simpl;
        [destruct (sdk_purchasePackage env pkg) as [x|e]; simpl|]
       |]|].
    all: unfold configure_calls; rewrite ?filter_snoc_bool; simpl;
      rewrite ?app_nil_r, filter_app; fold configure_calls;
      by rewrite configure_calls_setup.
  - unfold restorePurchases, sdk. munfold.
    destruct (isNative s) eqn:Hn; simpl; [|by rewrite Hweb, app_nil_r].
    rewrite ensureConfigured_run. simpl.
    destruct (configure_error env s); simpl.
    { unfold configure_calls. rewrite filter_app. fold configure_calls.
      by rewrite configure_calls_setup. }
    destruct (sdk_import env) as [[]|e]; simpl;
      [destruct (sdk_restorePurchases env) as [o|e]; simpl|].
    all: unfold configure_calls; rewrite ?filter_snoc_bool; simpl;
      rewrite ?app_nil_r, filter_app; fold configure_calls;
      by rewrite configure_calls_setup.
  - unfold checkPremiumStatus, sdk. munfold.
    destruct (isNative s) eqn:Hn; simpl; [|by rewrite Hweb, app_nil_r].
    rewrite ensureConfigured_run. simpl.
    destruct (configure_error env s); simpl.
    { unfold configure_calls. rewrite filter_snoc_bool. simpl.
      rewrite app_nil_r, filter_app. fold configure_calls.
      by rewrite configure_calls_setup. }
    destruct (sdk_import env) as [[]|e]; simpl;
      [destruct (sdk_getCustomerInfo env) as [o|e]; simpl|].
    all: unfold configure_calls; rewrite ?filter_snoc_bool; simpl;
      rewrite ?app_nil_r, filter_app; fold configure_calls;
      by rewrite configure_calls_setup.
Qed.

Lemma one_configure_per_operation_witness :
  configure_calls (step (Restore Fixtures.healthy) Fixtures.on_android []).2
  = [] ++ configure_attempt Fixtures.healthy Fixtures.on_android.
Proof.
  apply (one_configure_per_operation (Restore Fixtures.healthy)
           Fixtures.healthy Fixtures.on_android []).
  reflexivity.
Defined.

(** The state an SDK operation leaves: that of its [ensureConfigured]. *)
Lemma step_sdk_state op env s t :
  op_env op = Some env ->
  (step op s t).1
  = match configure_error env s with Some _ => s | None => configured_state s end.
Proof.
  intros Hop.
  assert (Hweb : isNative s = false ->
                 s = match configure_error env s with
                     | Some _ => s | None => configured_state s end).
  { intros Hn. unfold configure_error, configured_state. by rewrite Hn. }
  destruct op as [id|env' ids|env' pid|env'|env']; simpl in Hop;
    [discriminate|injection Hop as ->..]; unfold step.
  - unfold getProducts, sdk. munfold.
    destruct (isNative s) eqn:Hn; simpl; [|by apply Hweb].
    rewrite ensureConfigured_run. simpl.
    destruct (configure_error env s); simpl; [done|].
    destruct (sdk_import env) as [[]|e]; simpl; [|done].
    destruct (sdk_getOfferings env) as [o|e]; simpl; [|done].
    by destruct (packages_of o).
  - unfold purchase, sdk, purchase_attempt, purchase_failed. munfold.
    destruct (isNative s) eqn:Hn; simpl; [|by apply Hweb].
    rewrite ensureConfigured_run. simpl.
    destruct (configure_error env s); simpl; [done|].
    destruct (sdk_import env) as [[]|e]; simpl; [|done].
    destruct (sdk_getOfferings env) as [o|e]; simpl;
      [|done].
    destruct (find _ (packages_of o)) as [pkg|]; simpl; [|done].
    destruct (sdk_purchasePackage env pkg) as [x|e]; simpl; [done|].
    done.
  - unfold restorePurchases, sdk. munfold.
    destruct (isNative s) eqn:Hn; simpl; [|by apply Hweb].
    rewrite ensureConfigured_run. simpl.
    destruct (configure_error env s); simpl; [done|].
    destruct (sdk_import env) as [[]|e]; simpl; [|done].
    by destruct (sdk_restorePurchases env).
  - unfold checkPremiumStatus, sdk. munfold.
    destruct (isNative s) eqn:Hn; simpl; [|by apply Hweb].
    rewrite ensureConfigured_run. simpl.
    destruct (configure_error env s); simpl; [done|].
    destruct (sdk_import env) as [[]|e]; simpl; [|done].
    by destruct (sdk_getCustomerInfo env).
Qed.

(** X7.  Over any run of operations the service stays on the runtime and
    the platform it was built for, and the identity it holds is the one
    given by the last [setAppUserId] (an empty string reading as none): no
    SDK operation, failed or not, touches the identity. *)
Theorem run_keeps_runtime_and_identity ops s t :
  isNative (exec ops s t).1 = isNative s
  /\ currentPlatform (exec ops s t).1 = currentPlatform s
  /\ appUserId (exec ops s t).1 = last_identity ops (appUserId s).
Proof.
  revert s t. induction ops as [|op ops IH]; intros s t; [done|].
  simpl. destruct (step op s t) as [s' t'] eqn:Hstep.
  assert (Hs' : isNative s' = isNative s
                /\ currentPlatform s' = currentPlatform s
                /\ appUserId s'
                   = match op with
                     | SetAppUserId id => if truthy id then id else None
                     | _ => appUserId s
                     end).
  { destruct (op_env op) as [env|] eqn:Hop.
    - pose proof (step_sdk_state op env s t Hop) as H.
      rewrite Hstep in H. simpl in H. subst s'.
      assert (Hid : match op with
                    | SetAppUserId id => if truthy id then id else None
                    | _ => appUserId s
                    end = appUserId s) by (by destruct op).
      rewrite Hid. unfold configured_state.
      destruct (configure_error env s); [done|].
      by destruct (negb (isNative s) || configured s).
    - destruct op; try discriminate. simpl in Hstep.
      by injection Hstep as <- <-. }
  destruct Hs' as (Hn & Hp & Hid), (IH s' t') as (IHn & IHp & IHid).
  unfold last_identity in *. simpl.
  rewrite IHn, IHp, IHid, Hn, Hp, Hid. done.
Qed.

(** *** [getProducts] *)

Lemma byProductId_lookup pkgs id :
  byProductId pkgs !! id
  = if nonempty id then find (sells id) (reverse pkgs) else None.
Proof.
  unfold byProductId.
  induction pkgs as [|p l IH] using rev_ind.
  - simpl. rewrite lookup_empty. by destruct (nonempty id).
  - rewrite foldl_app, reverse_snoc. simpl foldl. simpl find.
    unfold sells at 1. unfold strict_eq.
    destruct (package_pid p) as [pid|].
    + destruct (nonempty pid) eqn:Hne.
      * rewrite lookup_insert. case_decide as Heq.
        -- subst id. rewrite Hne.
           by rewrite bool_decide_eq_true_2.
        -- rewrite bool_decide_eq_false_2 by done. exact IH.
      * destruct pid; [|discriminate].
        destruct id; [by rewrite IH|].
        rewrite bool_decide_eq_false_2 by done. exact IH.
    + exact IH.
Qed.

Lemma find_reverse_is_Some {A} (f : A -> bool) (l : list A) :
  is_Some (find f (reverse l)) <-> is_Some (find f l).
Proof.
  assert (H : forall k : list A, is_Some (find f k) <-> exists x, x ∈ k /\ f x = true).
  { intros k. split.
    - intros [x Hx]. apply find_some in Hx as [Hin Hf].
      exists x. split; [by apply list_elem_of_In|done].
    - intros (x & Hin & Hf). destruct (find f k) eqn:E; [done|].
      apply list_elem_of_In in Hin.
      pose proof (find_none f k E x Hin). congruence. }
  rewrite !H. split; intros (x & Hin & Hf); exists x; (split; [|done]).
  - by rewrite elem_of_reverse in Hin.
  - by rewrite elem_of_reverse.
Qed.

(** X8.  When the catalog can be fetched, [getProducts] answers, for the
    requested ids in their order, the description of the last package of the
    catalog sold under that id, and leaves out the ids the catalog does not
    sell and the empty id.  A non-empty id is listed exactly when [purchase]
    would find a package for it (which is the first one sold under the id,
    not the last). *)
Theorem getProducts_lists_last_match (IAPProduct : Type)
    (describe : Package -> string -> IAPProduct) env ids s t offerings :
  isNative s = true -> catalog_failure env s = None ->
  sdk_getOfferings env = Ok offerings ->
  outcome (getProducts IAPProduct describe env ids s t)
  = Ok (omap (fun id =>
                (fun pkg => describe pkg id)
                  <$> (if nonempty id
                       then find (sells id) (reverse (packages_of offerings))
                       else None)) ids)
  /\ forall id, nonempty id = true ->
       (is_Some (byProductId (packages_of offerings) !! id)
        <-> is_Some (find (sells id) (packages_of offerings))).
Proof.
  intros Hn Hc Ho. split.
  - unfold catalog_failure in Hc. unfold getProducts, sdk. munfold.
    rewrite Hn. simpl. rewrite ensureConfigured_run. simpl.
    destruct (configure_error env s); [done|].
    destruct (sdk_import env) as [[]|e]; [|done]. simpl. rewrite Ho. simpl.
    destruct (packages_of offerings) as [|p l] eqn:Hp.
    + simpl. f_equal. induction ids as [|id ids IH]; [done|].
      csimpl. rewrite <- IH. by destruct (nonempty id).
    + simpl. rewrite <- Hp. f_equal. apply omap_ext_all.
      intros id. by rewrite byProductId_lookup.
  - intros id Hne. rewrite byProductId_lookup, Hne.
    apply find_reverse_is_Some.
Qed.

Lemma getProducts_lists_last_match_witness :
  outcome (getProducts Package (fun pkg _ => pkg)
             (Fixtures.selling [Fixtures.monthly; Fixtures.monthly_promo])
             ["lifetime"; "cozy_premium_monthly"; ""] Fixtures.on_android [])
  = Ok [Fixtures.monthly_promo].
Proof.
  apply (getProducts_lists_last_match Package (fun pkg _ => pkg)
           (Fixtures.selling [Fixtures.monthly; Fixtures.monthly_promo])
           ["lifetime"; "cozy_premium_monthly"; ""] Fixtures.on_android []
           (Some {| current :=
                      Some {| availablePackages :=
                                Some [Fixtures.monthly;
                                      Fixtures.monthly_promo] |} |}));
    reflexivity.
Defined.

(** X9.  On a device [getProducts] has no handler of its own: when the
    configuration, the loading of the SDK or the catalog query fails, it
    rejects with that very error; otherwise it returns at most one product
    per requested id. *)
Theorem getProducts_propagates_failures (IAPProduct : Type)
    (describe : Package -> string -> IAPProduct) env ids s t :
  isNative s = true ->
  match catalog_failure env s with
  | Some e => outcome (getProducts IAPProduct describe env ids s t) = Throw e
  | None =>
      exists products,
        outcome (getProducts IAPProduct describe env ids s t) = Ok products
        /\ (length products <= length ids)%nat
  end.
Proof.
  intros Hn. unfold catalog_failure, getProducts, sdk. munfold.
  rewrite Hn. simpl. rewrite ensureConfigured_run. simpl.
  destruct (configure_error env s); [done|].
  destruct (sdk_import env) as [[]|e]; [|done]. simpl.
  destruct (sdk_getOfferings env) as [o|e]; [|done]. simpl.
  destruct (packages_of o); simpl; eexists; (split; [done|]).
  - simpl. lia.
  - apply omap_length_le.
Qed.

Lemma getProducts_propagates_failures_witness :
  outcome (getProducts string (fun _ id => id) Fixtures.keyless
             ["cozy_premium_monthly"] Fixtures.on_android [])
  = Throw (Error "[IAP] Missing RevenueCat API key. Set VITE_REVENUECAT_PUBLIC_GOOGLE_KEY in .env").
Proof.
  exact (getProducts_propagates_failures string (fun _ id => id)
           Fixtures.keyless ["cozy_premium_monthly"] Fixtures.on_android []
           eq_refl).
Defined.

(** *** [checkPremiumStatus] *)

Lemma premium_entitlement_Some info :
  is_Some (premium_entitlement info)
  <-> exists ent, ("premium", ent) ∈ active info.
Proof.
  unfold premium_entitlement. split.
  - intros [ent Hent].
    destruct (find _ (active info)) as [[k e]|] eqn:Hf; [|done].
    apply find_some in Hf as [Hin Hk]. simpl in Hk.
    apply bool_decide_eq_true in Hk. subst k.
    exists e. by apply list_elem_of_In.
  - intros [ent Hin].
    destruct (find _ (active info)) as [[k e]|] eqn:Hf; [done|].
    apply list_elem_of_In in Hin.
    pose proof (find_none _ _ Hf _ Hin) as Hk.
    apply bool_decide_eq_false in Hk. by destruct Hk.
Qed.

Lemma status_expiry_nonempty ent : expiresAt (status_of ent) <> Some "".
Proof.
  unfold status_of, js_or. destruct ent as [ent|]; simpl; [|done].
  by destruct (expirationDate ent) as [[|]|], (expiresDate ent) as [[|]|].
Qed.

Lemma checkPremiumStatus_expiry env s t st s' t' :
  checkPremiumStatus env s t = (Ok st, s', t') -> expiresAt st <> Some "".
Proof.
  intros H. destruct (isNative s) eqn:Hn.
  - pose proof (IAPFacts.checkPremiumStatus_cases env s t Hn) as Hc.
    destruct (check_failure env s).
    + destruct Hc as (s1 & t1 & Hc). rewrite Hc in H. by injection H as <- _ _.
    + destruct Hc as (info & t1 & _ & Hc). rewrite Hc in H.
      injection H as <- _ _. apply status_expiry_nonempty.
  - unfold checkPremiumStatus in H. munfold. rewrite Hn in H. simpl in H.
    by injection H as <- _ _.
Qed.

(** X10.  [checkPremiumStatus] always returns a status, and reports premium
    only when it runs on a device, every step of the query succeeded and the
    customer's active entitlements hold one named "premium"; in every other
    case, a failed query included, the status is not premium without an
    expiry.  The expiry it reports is never the empty string. *)
Theorem checkPremiumStatus_premium_only_if_reported env s t :
  exists st,
    outcome (checkPremiumStatus env s t) = Ok st
    /\ (isPremium st = true <->
        isNative s = true /\ check_failure env s = None
        /\ exists info ent, sdk_getCustomerInfo env = Ok info
                            /\ ("premium", ent) ∈ active info)
    /\ (isPremium st = false -> expiresAt st = None)
    /\ expiresAt st <> Some "".
Proof.
  destruct (isNative s) eqn:Hn.
  - pose proof (IAPFacts.checkPremiumStatus_cases env s t Hn) as H.
    destruct (check_failure env s) as [e|] eqn:Hc.
    + destruct H as (s' & t' & ->). eexists. split; [done|]. simpl.
      repeat split; try done. by intros (_ & ? & _).
    + destruct H as (info & t' & Hinfo & ->). eexists. split; [done|].
      unfold status_of, js_or. simpl.
      pose proof (premium_entitlement_Some info) as Hp.
      destruct (premium_entitlement info) as [ent|]; simpl.
      * split; [|split].
        -- split; [intros _|by intros _].
           destruct Hp as [Hp _]. destruct Hp as [ent' Hin]; [done|].
           split; [done|]. split; [done|]. by exists info, ent'.
        -- discriminate.
        -- destruct (expirationDate ent) as [[|]|], (expiresDate ent) as [[|]|];
             done.
      * split; [|done].
        split; [discriminate|]. intros (_ & _ & info' & ent & Hinfo' & Hin).
        rewrite Hinfo in Hinfo'. injection Hinfo' as <-.
        destruct Hp as [_ Hp]. destruct Hp as [x Hx]; [by exists ent|done].
  - unfold checkPremiumStatus. munfold. rewrite Hn. simpl.
    eexists. split; [done|]. simpl. repeat split; try done.
    by intros (? & _).
Qed.
End IAPExtra.

(** ** How often the SDK is configured *)

Module IAPLifecycle.
Import IAP IAPRuns.







(** Three operations in a row, the first two meeting a rejected
    [configure]: it is called three times and resolves once. *)
Lemma configure_retried_until_it_resolves :
  configure_calls
    (exec [Restore (Fixtures.unconfigurable (Error "offline"));
           Restore (Fixtures.unconfigurable (Error "offline"));
           Restore Fixtures.healthy]
       Fixtures.on_android []).2
  = [Configure "goog_key" None; Configure "goog_key" None;
     Configure "goog_key" None]
  /\ resolved_configure_calls
       [Restore (Fixtures.unconfigurable (Error "offline"));
        Restore (Fixtures.unconfigurable (Error "offline"));
        Restore Fixtures.healthy]
       Fixtures.on_android = 1%nat.
Proof. split; reflexivity. Qed.
End IAPLifecycle.

(** ** Further properties of the entitlement resolver *)

Module PremiumExtra.
Import Premium PremiumRuns.

Section Host.
Variable Date_parse : string -> option Z.
Variable toISOString : Z -> string.

Abbreviation fetch := (fetchPremiumStatus Date_parse toISOString).

Lemma fetch_returns env user s t :
  exists s' t', fetch env user s t = (Ok tt, s', t').
Proof.
  destruct user as [u|]; [|by do 2 eexists].
  destruct (IAP.isAvailable (iapService s)) eqn:Hn.
  - destruct (IAPFacts.checkPremiumStatus_returns (iap_env env)
                (service_for u s) []) as (st & svc & evs & Hc).
    rewrite (PremiumFacts.fetch_on_device _ _ env u s t st svc evs Hn Hc).
    by do 2 eexists.
  - rewrite (PremiumFacts.fetch_in_browser _ _ env u s t Hn).
    destruct (db_select env) as [resp|e]; [|by do 2 eexists].
    destruct (error resp), (data resp); by do 2 eexists.
Qed.

(** X11.  [activatePremium] always resolves to [true] and
    [refreshPremiumStatus] always resolves: both do what
    [fetchPremiumStatus] does and nothing more, so the [true] says nothing
    about the premium flag the call leaves. *)
Theorem activatePremium_always_true env user s t :
  activatePremium Date_parse toISOString env user s t
  = (Ok true, final (fetch env user s t), calls (fetch env user s t))
  /\ refreshPremiumStatus Date_parse toISOString env user s t
     = (Ok tt, final (fetch env user s t), calls (fetch env user s t)).
Proof.
  unfold activatePremium, refreshPremiumStatus. munfold.
  destruct (fetch_returns env user s t) as (s' & t' & ->). done.
Qed.

Lemma filter_fmap_Iap (f : Event -> bool) (evs : list IAP.Event) :
  (forall e, f (Iap e) = false) ->
  filter (fun ev => f ev = true) (Iap <$> evs) = [].
Proof.
  intros Hf. apply IAPExtra.filter_bool_nil.
  apply Forall_fmap, Forall_forall. intros e _. apply Hf.
Qed.

(** X12.  The two strategies never mix.  On a device the resolver never
    reads the cache and writes it at most once; in a browser it reads the
    cache once, makes no SDK call, writes nothing and leaves the service
    singleton untouched. *)
Theorem strategies_are_exclusive env u s :
  (IAP.isAvailable (iapService s) = true ->
   filter (fun ev => is_read ev = true) (calls (fetch env (Some u) s [])) = []
   /\ (length (filter (fun ev => is_write ev = true)
                 (calls (fetch env (Some u) s []))) <= 1)%nat)
  /\ (IAP.isAvailable (iapService s) = false ->
      filter (fun ev => is_read ev = true) (calls (fetch env (Some u) s []))
      = [DbSelect (id u)]
      /\ filter (fun ev => is_sdk ev = true) (calls (fetch env (Some u) s [])) = []
      /\ filter (fun ev => is_write ev = true) (calls (fetch env (Some u) s [])) = []
      /\ iapService (final (fetch env (Some u) s [])) = iapService s).
Proof.
  split; intros Hn.
  - destruct (IAPFacts.checkPremiumStatus_returns (iap_env env)
                (service_for u s) []) as (st & svc & evs & Hc).
    rewrite (PremiumFacts.fetch_on_device _ _ env u s [] st svc evs Hn Hc).
    unfold calls. simpl.
    destruct (expiry_column _ _ _); simpl.
    + rewrite !IAPExtra.filter_snoc_bool, !filter_fmap_Iap by done.
      simpl. split; [done|lia].
    + rewrite !filter_fmap_Iap by done. simpl. split; [done|lia].
  - rewrite (PremiumFacts.fetch_in_browser _ _ env u s [] Hn).
    destruct (db_select env) as [resp|e]; [|done].
    by destruct (error resp), (data resp).
Qed.

(** X13.  A failed native query is written through to the cache: when a
    step of the query fails on a device, the premium flag becomes false and
    the last call of the resolver is the update of the user's record to
    not premium, without an expiry. *)
Theorem failed_query_downgrades_cache env u s t :
  IAP.isAvailable (iapService s) = true ->
  is_Some (IAPRuns.check_failure (iap_env env) (service_for u s)) ->
  isPremium (final (fetch env (Some u) s t)) = false
  /\ last (calls (fetch env (Some u) s t)) = Some (DbUpdate (id u) false None).
Proof.
  intros Hn [e He].
  pose proof (IAPFacts.checkPremiumStatus_cases (iap_env env)
                (service_for u s) [] Hn) as H.
  rewrite He in H. destruct H as (svc & evs & Hc).
  rewrite (PremiumFacts.fetch_on_device _ _ env u s t _ svc evs Hn Hc).
  unfold final, calls. simpl. split; [done|]. by rewrite last_snoc.
Qed.

(** X14.  On a device the premium flag is the SDK's verdict alone: when the
    query succeeds, the flag is true exactly when the active entitlements
    hold one named "premium", whatever its expiry says and whatever the
    clock and the database answer. *)
Theorem device_flag_is_sdk_verdict env u s t info :
  IAP.isAvailable (iapService s) = true ->
  IAPRuns.check_failure (iap_env env) (service_for u s) = None ->
  IAP.sdk_getCustomerInfo (iap_env env) = Ok info ->
  (isPremium (final (fetch env (Some u) s t)) = true
   <-> exists ent, ("premium", ent) ∈ IAP.active info).
Proof.
  intros Hn Hok Hinfo.
  pose proof (IAPFacts.checkPremiumStatus_cases (iap_env env)
                (service_for u s) [] Hn) as H.
  rewrite Hok in H. destruct H as (info' & evs & Hinfo' & Hc).
  rewrite Hinfo in Hinfo'. injection Hinfo' as <-.
  rewrite (PremiumFacts.fetch_on_device _ _ env u s t _ _ evs Hn Hc).
  unfold final. simpl. rewrite <- IAPExtra.premium_entitlement_Some.
  unfold IAP.status_of. simpl. apply bool_decide_eq_true.
Qed.

(** X15.  An expiry the host cannot parse silently cancels the cache write:
    when the device reports a status with a non-empty expiry that is not a
    valid date, the premium flag is still set from the status and the
    resolver completes, but no update is sent to the database. *)
Theorem unparseable_expiry_skips_write env u s st svc evs e :
  IAP.isAvailable (iapService s) = true ->
  IAP.checkPremiumStatus (iap_env env) (service_for u s) [] = (Ok st, svc, evs) ->
  IAP.expiresAt st = Some e -> Date_parse e = None ->
  outcome (fetch env (Some u) s []) = Ok tt
  /\ isPremium (final (fetch env (Some u) s [])) = IAP.isPremium st
  /\ filter (fun ev => is_write ev = true) (calls (fetch env (Some u) s [])) = [].
Proof.
  intros Hn Hc He Hd.
  rewrite (PremiumFacts.fetch_on_device _ _ env u s [] st svc evs Hn Hc).
  pose proof (IAPExtra.checkPremiumStatus_expiry _ _ _ _ _ _ Hc) as Hne.
  unfold outcome, final, calls, expiry_column, iso_of. simpl.
  rewrite He in *. destruct e as [|c e]; [done|]. simpl. rewrite Hd. simpl.
  repeat split. by rewrite filter_fmap_Iap.
Qed.

(** X16.  What a browser computes from the record a device wrote.  When the
    last call of a device resolution is the update of the record to
    [(flag, column)] and a browser later reads that very record, the browser
    shows premium exactly when the device's status was premium and its
    expiry, if any, is still in the future on the browser's clock; provided
    the host parses the ISO string it printed back to the same time. *)
Theorem browser_reads_what_device_wrote env_d env_b u s_d s_b t flag column :
  IAP.isAvailable (iapService s_d) = true ->
  last (calls (fetch env_d (Some u) s_d [])) = Some (DbUpdate (id u) flag column) ->
  IAP.isAvailable (iapService s_b) = false ->
  db_select env_b
  = Ok {| data := Some (written_row flag column); error := None |} ->
  (forall ms, column = Some (toISOString ms) ->
              Date_parse (toISOString ms) = Some ms
              /\ nonempty (toISOString ms) = true) ->
  exists st,
    outcome (IAP.checkPremiumStatus (iap_env env_d) (service_for u s_d) []) = Ok st
    /\ isPremium (final (fetch env_b (Some u) s_b t))
       = IAP.isPremium st
         && match IAP.expiresAt st with
            | Some e => in_future Date_parse (now env_b) e
            | None => true
            end.
Proof.
  intros Hd Hlast Hb Hsel Hhost.
  destruct (IAPFacts.checkPremiumStatus_returns (iap_env env_d)
              (service_for u s_d) []) as (st & svc & evs & Hc).
  exists st. split; [by rewrite Hc|].
  pose proof (IAPExtra.checkPremiumStatus_expiry _ _ _ _ _ _ Hc) as Hne.
  rewrite (PremiumFacts.fetch_on_device _ _ env_d u s_d [] st svc evs Hd Hc)
    in Hlast.
  rewrite (PremiumFacts.fetch_in_browser _ _ env_b u s_b t Hb), Hsel.
  unfold calls in Hlast. unfold final. simpl in *.
  unfold isActive, written_row. simpl.
  unfold expiry_column, iso_of in Hlast.
  destruct (IAP.expiresAt st) as [e|] eqn:He.
  - destruct e as [|c e]; [done|]. simpl in Hlast.
    destruct (Date_parse (String c e)) as [ms|] eqn:Hp; simpl in Hlast.
    + rewrite last_snoc in Hlast. injection Hlast as <- <-.
      destruct (Hhost ms eq_refl) as [Hback Hfull].
      simpl. rewrite Hfull. simpl. unfold in_future. by rewrite Hback, Hp.
    + exfalso. clear -Hlast. induction evs as [|ev evs IH] using rev_ind.
      * done.
      * rewrite fmap_app in Hlast. simpl in Hlast.
        by rewrite last_snoc in Hlast.
  - simpl in Hlast. rewrite last_snoc in Hlast. by injection Hlast as <- <-.
Qed.

(** X17.  After a signed-out resolution nothing stale is left: the next
    resolution in a browser shows premium exactly when the read returns a
    record that is active, and not premium when the read fails or finds no
    record. *)
Theorem sign_out_clears_stale_flag env_out env u s t t' :
  IAP.isAvailable (iapService s) = false ->
  (isPremium (final (fetch env (Some u) (final (fetch env_out None s t)) t'))
   = true
   <-> exists resp row,
         db_select env = Ok resp /\ error resp = None
         /\ data resp = Some row
         /\ cache_active Date_parse (now env) row).
Proof.
  intros Hn. set (s0 := final (fetch env_out None s t)).
  assert (Hs0 : iapService s0 = iapService s /\ isPremium s0 = false) by done.
  destruct Hs0 as [Hsvc Hflag]. clearbody s0.
  rewrite PremiumFacts.fetch_in_browser by (by rewrite Hsvc).
  unfold final. destruct (db_select env) as [resp|e]; simpl.
  - destruct (error resp) as [e|] eqn:He, (data resp) as [row|] eqn:Hd; simpl.
    1,2,4: rewrite ?Hflag; split; [done|];
      intros (resp' & row' & [= <-] & ? & ? & _); congruence.
    rewrite PremiumFacts.isActive_spec. split.
    + intros H. by exists resp, row.
    + intros (resp' & row' & [= <-] & _ & Hrow & H). congruence.
  - rewrite Hflag. split; [done|]. by intros (? & ? & ? & _).
Qed.

(** X18.  Every resolution on a device ties the service to the user and
    configures the SDK again: with a key for the platform and a loadable
    SDK, the calls include [configure] with that key and the user's id, even
    when the service was already configured, and the service is left with
    the user's id as its identity. *)
Theorem device_resolution_reconfigures env u s t k :
  IAP.isAvailable (iapService s) = true ->
  IAP.getApiKey (iap_env env) (iapService s) = Some k -> nonempty k = true ->
  IAP.sdk_import (iap_env env) = Ok tt ->
  nonempty (id u) = true ->
  Iap (IAP.Configure k (Some (id u))) ∈ calls (fetch env (Some u) s t)
  /\ IAP.appUserId (iapService (final (fetch env (Some u) s t))) = Some (id u).
Proof.
  intros Hn Hk Hne Hi Hid.
  destruct (IAP.checkPremiumStatus (iap_env env) (service_for u s) [])
    as [[r svc] evs] eqn:Hc.
  destruct (IAPFacts.checkPremiumStatus_returns (iap_env env)
              (service_for u s) []) as (st & svc' & evs' & Hc').
  rewrite Hc in Hc'. injection Hc' as -> <- <-.
  rewrite (PremiumFacts.fetch_on_device _ _ env u s t st svc evs Hn Hc).
  assert (Hu : IAP.appUserId (service_for u s) = Some (id u)).
  { unfold service_for. simpl. by rewrite Hid. }
  pose proof (IAPFacts.sdk_op_configures (IAPRuns.CheckPremium (iap_env env))
                (iap_env env) (service_for u s) [] k eq_refl Hn eq_refl
                Hk Hne Hi) as Hconf.
  pose proof (IAPExtra.step_sdk_state (IAPRuns.CheckPremium (iap_env env))
                (iap_env env) (service_for u s) [] eq_refl) as Hst.
  unfold IAPRuns.step in Hconf, Hst. rewrite Hc in Hconf, Hst.
  unfold final, calls in *. simpl in *. rewrite Hu in Hconf. split.
  - assert (Hin : Iap (IAP.Configure k (Some (id u))) ∈ t ++ (Iap <$> evs)).
    { apply elem_of_app. right. by apply list_elem_of_fmap_2. }
    destruct (expiry_column _ _ _); [|done].
    apply elem_of_app. by left.
  - rewrite Hst. unfold IAPRuns.configured_state.
    destruct (IAPRuns.configure_error _ _); [done|].
    by destruct (negb _ || _).
Qed.
End Host.

Import Fixtures.

(** [activatePremium] answers [true] for a user without any entitlement. *)
Lemma activatePremium_true_without_premium :
  activatePremium Date_parse toISOString (browser_world no_row) (Some u1)
    (provider in_browser false) []
  = (Ok true,
     {| iapService := in_browser; isPremium := false; isLoading := false |},
     [DbSelect "u1"]).
Proof. reflexivity. Qed.

Lemma strategies_are_exclusive_witness :
  (filter (fun ev => is_read ev = true)
     (calls (fetchPremiumStatus Date_parse toISOString device_world (Some u1)
               (provider on_android false) [])) = []
   /\ (length (filter (fun ev => is_write ev = true)
                 (calls (fetchPremiumStatus Date_parse toISOString device_world
                           (Some u1) (provider on_android false) []))) <= 1)%nat)
  /\ iapService
       (final (fetchPremiumStatus Date_parse toISOString (browser_world no_row)
                 (Some u1) (provider in_browser false) []))
     = in_browser.
Proof.
  split.
  - apply (strategies_are_exclusive Date_parse toISOString device_world u1
             (provider on_android false)). reflexivity.
  - apply (strategies_are_exclusive Date_parse toISOString
             (browser_world no_row) u1 (provider in_browser false)).
    reflexivity.
Defined.

Lemma failed_query_downgrades_cache_witness :
  isPremium
    (final (fetchPremiumStatus Date_parse toISOString keyless_device_world
              (Some u1) (provider on_android true) [])) = false
  /\ last (calls (fetchPremiumStatus Date_parse toISOString
                    keyless_device_world (Some u1)
                    (provider on_android true) []))
     = Some (DbUpdate "u1" false None).
Proof.
  apply (failed_query_downgrades_cache Date_parse toISOString
           keyless_device_world u1 (provider on_android true) []).
  - reflexivity.
  - by eexists.
Defined.

Lemma device_flag_is_sdk_verdict_witness :
  isPremium
    (final (fetchPremiumStatus Date_parse toISOString
              (reporting_world expired_in_2001) (Some u1)
              (provider on_android false) [])) = true.
Proof.
  apply (device_flag_is_sdk_verdict Date_parse toISOString
           (reporting_world expired_in_2001) u1 (provider on_android false) []
           {| IAP.active := [("premium", expired_in_2001)] |});
    try reflexivity.
  exists expired_in_2001. apply list_elem_of_singleton. reflexivity.
Defined.

Lemma unparseable_expiry_skips_write_witness :
  outcome (fetchPremiumStatus Date_parse toISOString
             (reporting_world garbled_expiry) (Some u1)
             (provider on_android false) []) = Ok tt
  /\ isPremium
       (final (fetchPremiumStatus Date_parse toISOString
                 (reporting_world garbled_expiry) (Some u1)
                 (provider on_android false) [])) = true
  /\ filter (fun ev => is_write ev = true)
       (calls (fetchPremiumStatus Date_parse toISOString
                 (reporting_world garbled_expiry) (Some u1)
                 (provider on_android false) [])) = [].
Proof.
  eapply (unparseable_expiry_skips_write Date_parse toISOString
            (reporting_world garbled_expiry) u1 (provider on_android false)
            {| IAP.isPremium := true; IAP.expiresAt := Some "soon" |});
    reflexivity.
Defined.

Lemma browser_reads_what_device_wrote_witness :
  isPremium
    (final (fetchPremiumStatus Date_parse_iso toISOString
              (browser_world (row true (Some "2001-01-01T00:00:00.000Z")))
              (Some u1) (provider in_browser false) [])) = false.
Proof.
  destruct (browser_reads_what_device_wrote Date_parse_iso toISOString
              (reporting_world expired_in_2001)
              (browser_world (row true (Some "2001-01-01T00:00:00.000Z")))
              u1 (provider on_android false) (provider in_browser false) []
              true (Some "2001-01-01T00:00:00.000Z")
              eq_refl eq_refl eq_refl eq_refl) as (st & Hst & Hflag).
  - intros ms Hms. injection Hms as Hms. unfold toISOString in *.
    repeat case_bool_decide; subst; try discriminate; split; reflexivity.
  - rewrite Hflag. injection Hst as <-. reflexivity.
Defined.

Lemma sign_out_clears_stale_flag_witness :
  isPremium
    (final (fetchPremiumStatus Date_parse toISOString
              (browser_world (row true None)) (Some u1)
              (final (fetchPremiumStatus Date_parse toISOString
                        (browser_world no_row) None
                        (provider in_browser true) []))
              [])) = true.
Proof.
  apply (sign_out_clears_stale_flag Date_parse toISOString
           (browser_world no_row) (browser_world (row true None)) u1
           (provider in_browser true) [] []).
  - reflexivity.
  - eexists _, _. repeat split; try reflexivity. by left.
Defined.

Lemma device_resolution_reconfigures_witness :
  Iap (IAP.Configure "goog_key" (Some "u1"))
  ∈ calls (fetchPremiumStatus Date_parse toISOString device_world (Some u1)
             (provider configured_for_u1 true) [])
  /\ IAP.appUserId
       (iapService
          (final (fetchPremiumStatus Date_parse toISOString device_world
                    (Some u1) (provider configured_for_u1 true) [])))
     = Some "u1".
Proof.
  apply (device_resolution_reconfigures Date_parse toISOString device_world
           u1 (provider configured_for_u1 true) [] "goog_key");
    reflexivity.
Defined.
End PremiumExtra.

(** ** Further properties of the credential form *)

Module AuthExtra.
Import Auth AuthRuns.

Section Host.
Variable trim : string -> string.

(** What a submission with both fields filled in does, by the answer of the
    backend call it makes. *)
Lemma handleSubmit_filled env s t :
  nonempty (email s) = true -> nonempty (password s) = true ->
  handleSubmit trim env s t
  = match mode s, auth_signUp env, auth_signIn env with
    | signup, Ok _, _ =>
        (Ok tt,
         {| mode := signin; email := email s; password := password s;
            isSubmitting := false |},
         ((t ++ [PreventDefault]) ++ [remote_call trim s])
           ++ [Toast "Check your email"
                 "We sent a confirmation email. After confirming, come back and sign in."])
    | signin, _, Ok _ =>
        (Ok tt,
         {| mode := signin; email := email s; password := password s;
            isSubmitting := false |},
         (((t ++ [PreventDefault]) ++ [remote_call trim s])
            ++ [Navigate "/"]) ++ [ReloadAfter 50])
    | signup, Throw e, _ | signin, _, Throw e =>
        (Ok tt,
         {| mode := mode s; email := email s; password := password s;
            isSubmitting := false |},
         ((t ++ [PreventDefault]) ++ [remote_call trim s])
           ++ [Toast "Authentication failed"
                 (js_or_lit (message e) (fallback_message (mode s)))])
    end.
Proof.
  intros He Hp. unfold handleSubmit, setIsSubmitting, setMode, remote_call.
  munfold. simpl. rewrite He, Hp. simpl.
  destruct (mode s); simpl.
  - by destruct (auth_signUp env), (auth_signIn env).
  - by destruct (auth_signUp env), (auth_signIn env).
Qed.

Lemma handleSubmit_unfilled env s t :
  nonempty (email s) && nonempty (password s) = false ->
  handleSubmit trim env s t
  = (Ok tt,
     {| mode := mode s; email := email s; password := password s;
        isSubmitting := false |},
     (t ++ [PreventDefault])
       ++ [Toast "Missing info" "Please enter an email and password."]).
Proof.
  intros H. unfold handleSubmit, setIsSubmitting. munfold. simpl.
  by destruct (nonempty (email s)), (nonempty (password s)).
Qed.

(** X19.  A sign-in that the backend accepts calls it once, with the trimmed
    email and the password as typed, then navigates to the root and
    schedules the reload 50 ms later; no notification is shown and the mode
    stays sign-in. *)
Theorem signin_navigates_and_reloads env s t :
  mode s = signin -> email s <> "" -> password s <> "" ->
  auth_signIn env = Ok tt ->
  handleSubmit trim env s t
  = (Ok tt,
     {| mode := signin; email := email s; password := password s;
        isSubmitting := false |},
     (((t ++ [PreventDefault]) ++ [SignIn (trim (email s)) (password s)])
        ++ [Navigate "/"]) ++ [ReloadAfter 50]).
Proof.
  intros Hm He Hp Hin.
  rewrite handleSubmit_filled by (by destruct (email s), (password s)).
  unfold remote_call. rewrite Hm, Hin. by destruct (auth_signUp env).
Qed.

(** X20.  When the backend rejects the call, in either mode, the submission
    still completes: one "Authentication failed" notification carries the
    error's message, or the fallback text of the mode when the error has
    none; nothing navigates, and the mode and the fields stay as they were. *)
Theorem rejection_is_notified env s t e :
  email s <> "" -> password s <> "" ->
  (mode s = signup /\ auth_signUp env = Throw e)
  \/ (mode s = signin /\ auth_signIn env = Throw e) ->
  handleSubmit trim env s t
  = (Ok tt,
     {| mode := mode s; email := email s; password := password s;
        isSubmitting := false |},
     ((t ++ [PreventDefault]) ++ [remote_call trim s])
       ++ [Toast "Authentication failed"
             (js_or_lit (message e) (fallback_message (mode s)))]).
Proof.
  intros He Hp H.
  rewrite handleSubmit_filled by (by destruct (email s), (password s)).
  destruct H as [[Hm Hr]|[Hm Hr]]; rewrite Hm, Hr; [done|].
  by destruct (auth_signUp env).
Qed.

(** X21.  The emptiness test is made on the fields as typed: whenever both
    are non-empty, exactly one backend call is made, whatever it answers,
    and it carries the trimmed email (which may be empty) and the untrimmed
    password. *)
Theorem filled_form_calls_backend_once env s :
  email s <> "" -> password s <> "" ->
  filter (fun ev => is_remote ev = true) (calls (handleSubmit trim env s []))
  = [remote_call trim s].
Proof.
  intros He Hp.
  rewrite handleSubmit_filled by (by destruct (email s), (password s)).
  unfold remote_call.
  destruct (mode s), (auth_signUp env), (auth_signIn env); reflexivity.
Qed.

(** X22.  Every submission completes, re-enables the form and keeps the
    fields; it changes the mode only from sign-up to sign-in, after an
    accepted sign-up; and it gives exactly one feedback: it navigates when
    a sign-in was accepted and shows no notification then, and shows exactly
    one notification in every other case. *)
Theorem submission_gives_one_feedback env s :
  outcome (handleSubmit trim env s []) = Ok tt
  /\ isSubmitting (final (handleSubmit trim env s [])) = false
  /\ email (final (handleSubmit trim env s [])) = email s
  /\ password (final (handleSubmit trim env s [])) = password s
  /\ mode (final (handleSubmit trim env s []))
     = (if accepted env s then signin else mode s)
  /\ (Navigate "/" ∈ calls (handleSubmit trim env s [])
      <-> accepted env s = true /\ mode s = signin)
  /\ length (filter (fun ev => is_toast ev = true)
               (calls (handleSubmit trim env s [])))
     = (if accepted env s && is_signin (mode s) then 0 else 1)%nat.
Proof.
  unfold accepted.
  destruct (nonempty (email s) && nonempty (password s)) eqn:Hfull.
  - apply andb_true_iff in Hfull as [He Hp].
    rewrite handleSubmit_filled by done. unfold remote_call.
    destruct (mode s) eqn:Hm, (auth_signUp env), (auth_signIn env);
      unfold outcome, final, calls; simpl;
      repeat split; try done; try (by intros _; set_solver);
      try (by intros [? ?]).
    all: exfalso;
      match goal with
      | H : _ ∈ _ |- _ =>
          repeat (apply elem_of_cons in H as [H|H]; [discriminate|]);
          by apply elem_of_nil in H
      end.
  - rewrite handleSubmit_unfilled by done.
    unfold outcome, final, calls. simpl.
    repeat split; try done; try (by intros [? ?]).
    all: exfalso;
      match goal with
      | H : _ ∈ _ |- _ =>
          repeat (apply elem_of_cons in H as [H|H]; [discriminate|]);
          by apply elem_of_nil in H
      end.
Qed.

(** X23.  After an accepted sign-up the form is a sign-in form: submitting
    it again, unchanged, calls sign-in with the same credentials, and never
    sign-up a second time. *)
Theorem resubmit_after_signup_signs_in env env' s t :
  mode s = signup -> email s <> "" -> password s <> "" ->
  auth_signUp env = Ok tt ->
  filter (fun ev => is_remote ev = true)
    (calls (handleSubmit trim env' (final (handleSubmit trim env s t)) []))
  = [SignIn (trim (email s)) (password s)].
Proof.
  intros Hm He Hp Hup.
  assert (Hfull : nonempty (email s) = true /\ nonempty (password s) = true)
    by (by destruct (email s), (password s)).
  destruct Hfull as [He' Hp'].
  rewrite (handleSubmit_filled env s t He' Hp'), Hm, Hup.
  unfold final at 1. simpl.
  rewrite handleSubmit_filled by done. unfold remote_call. simpl.
  destruct (auth_signUp env'), (auth_signIn env'); reflexivity.
Qed.
End Host.

(** *** The remember-me checkbox *)

(** X24.  The choice survives a reload exactly when the storage is
    usable.  After a change of the checkbox (by the box or by its label) the
    component shows the new choice; the initial state read back from the
    storage is [true] when reading throws, the state the storage gave before
    when writing throws, and the new choice otherwise (an indeterminate box
    counting as unchecked); and the change touches no other key. *)
Theorem remembered_choice_round_trip (next : bool) (ls : Storage) :
  (remember next ls).1 = next
  /\ rememberMe_initial (remember next ls).2
     = (if reads_throw ls then true
        else if writes_throw ls then rememberMe_initial ls
        else next)
  /\ (forall key, key <> "rememberMe" ->
        items (remember next ls).2 !! key = items ls !! key)
  /\ (forall v, reads_throw ls = false -> writes_throw ls = false ->
        rememberMe_initial (onCheckedChange v ls).2
        = match v with Checked => true | _ => false end)
  /\ (forall shown, reads_throw ls = false -> writes_throw ls = false ->
        rememberMe_initial (onLabelClick shown ls).2 = negb shown).
Proof.
  assert (H : forall b, rememberMe_initial (remember b ls).2
                        = (if reads_throw ls then true
                           else if writes_throw ls then rememberMe_initial ls
                           else b)).
  { intros b. unfold rememberMe_initial, remember, setItem, getItem.
    destruct (reads_throw ls) eqn:Hr, (writes_throw ls) eqn:Hw; simpl;
      rewrite ?Hr; try done.
    rewrite lookup_insert_eq. by destruct b. }
  split; [done|]. split; [apply H|]. split; [|split].
  - intros key Hk. unfold remember, setItem.
    destruct (writes_throw ls); simpl; [done|]. by rewrite lookup_insert_ne.
  - intros v Hr Hw. unfold onCheckedChange. by rewrite H, Hr, Hw.
  - intros shown Hr Hw. unfold onLabelClick. by rewrite H, Hr, Hw.
Qed.

(** X25.  The checkbox starts unchecked only when the storage can be read
    and holds the exact string "false" under [rememberMe]; a missing key,
    any other value, or a storage that throws gives a checked box. *)
Theorem rememberMe_defaults_to_true (ls : Storage) :
  rememberMe_initial ls = false
  <-> reads_throw ls = false /\ items ls !! "rememberMe" = Some "false".
Proof.
  unfold rememberMe_initial, getItem. destruct (reads_throw ls); simpl.
  - split; [done|by intros []].
  - rewrite negb_false_iff, bool_decide_eq_true. by split; [|intros []].
Qed.

Import Fixtures.

Lemma signin_navigates_and_reloads_witness :
  handleSubmit Fixtures.trim backend_up (form signin "a@b.com" "x") []
  = (Ok tt, form signin "a@b.com" "x",
     [PreventDefault; SignIn "a@b.com" "x"; Navigate "/"; ReloadAfter 50]).
Proof.
  apply (signin_navigates_and_reloads Fixtures.trim backend_up
           (form signin "a@b.com" "x") []); done.
Defined.

Lemma rejection_is_notified_witness :
  handleSubmit Fixtures.trim backend_refuses (form signup "a@b.com" "x") []
  = (Ok tt, form signup "a@b.com" "x",
     [PreventDefault; SignUp "a@b.com" "x";
      Toast "Authentication failed" "User already registered"]).
Proof.
  apply (rejection_is_notified Fixtures.trim backend_refuses
           (form signup "a@b.com" "x") [] (Error "User already registered"));
    try done.
  left. split; reflexivity.
Defined.

Lemma filled_form_calls_backend_once_witness :
  filter (fun ev => is_remote ev = true)
    (calls (handleSubmit trim_blanks backend_refuses (form signin "   " "x") []))
  = [SignIn "" "x"].
Proof.
  apply (filled_form_calls_backend_once trim_blanks backend_refuses
           (form signin "   " "x")); done.
Defined.

Lemma resubmit_after_signup_signs_in_witness :
  filter (fun ev => is_remote ev = true)
    (calls (handleSubmit Fixtures.trim backend_up
              (final (handleSubmit Fixtures.trim backend_up
                        (form signup "a@b.com" "x") []))
              []))
  = [SignIn "a@b.com" "x"].
Proof.
  apply (resubmit_after_signup_signs_in Fixtures.trim backend_up backend_up
           (form signup "a@b.com" "x") []); done.
Defined.

Lemma remembered_choice_round_trip_witness :
  rememberMe_initial (onLabelClick true (storage_with "true")).2 = false
  /\ rememberMe_initial (onCheckedChange Indeterminate (storage_with "true")).2
     = false.
Proof.
  split.
  - apply (remembered_choice_round_trip false (storage_with "true"));
      reflexivity.
  - apply (remembered_choice_round_trip false (storage_with "true")
             ) with (v := Indeterminate); reflexivity.
Defined.

(** A full storage keeps the old choice: unchecking is lost on reload. *)
Lemma unchecking_lost_when_storage_full :
  (remember false (storage_full "true")).1 = false
  /\ rememberMe_initial (remember false (storage_full "true")).2 = true.
Proof. split; reflexivity. Qed.
End AuthExtra.
